(** * Structural causal models of the "Ladder of Causation" notebook

    A shallow embedding of [Notebooks/Chapter_02.ipynb].

    The program:
    - [Py]: Python's scalar numbers ([int], and [float] as IEEE binary64
      through Rocq's primitive floats) with the exceptions their arithmetic
      raises;
    - [CounterFactualSCM]: the three methods [abduct], [modify], [predict];
      [Exact]: the same three read over the real numbers;
      [Closures]: the function objects [modify] returns, with their cells;
    - [Numpy], [Random]: one-dimensional arrays and the process-wide random
      generator; [BookSCM]: the sampler of the binary scenario;
      [Stats]: the exceptions of the correlation the cells compute;
      [Continuous]: the three cells of the continuous scenario;
    - [Lcg]: a small generator to evaluate the model on concrete draws;
    - [Association]: the conditional probability computed from a sample;
      [Session]: runs of the cells of the continuous scenario in any order.

    Its properties:
    - [Binary64], [PyFacts], [EngineFacts]: rounding, conversions and the
      equations of [abduct] and [modify] by type of operand;
    - [Engine]: abduction, round trip, division by zero, closures;
    - [Sampler]: the structural equations, the two interventions, seeding;
    - [Counterfactual]: abduction followed by prediction under another
      treatment; [Conversion]: what [abduct] returns under a binary
      treatment, by type of outcome;
    - [AssociationFacts], [Sampling]: the conditional probability, the
      sampler at its edges;
    - [SessionFacts]: what every run of the cells keeps true. *)

From Stdlib Require Import ZArith Bool List Lia Floats Reals Lra.
Import ListNotations.

Set Warnings "-inexact-float".

(** ** Exceptions and results *)

Inductive exn : Set :=
| ZeroDivisionError
| OverflowError
| ValueError
| NameError.

Inductive result (A : Type) : Type :=
| Ok (a : A)
| Raise (e : exn).

Arguments Ok {A} a.
Arguments Raise {A} e.

Definition bind {A B : Type} (r : result A) (k : A -> result B) : result B :=
  match r with
  | Ok a => k a
  | Raise e => Raise e
  end.

Notation "x <- r ;; k" := (bind r (fun x => k))
  (at level 61, r at next level, right associativity).

Definition raises {A : Type} (r : result A) : Prop := exists e, r = Raise e.
Definition returns {A : Type} (r : result A) : Prop := exists a, r = Ok a.

(** ** Python numbers *)

Module Py.

(** A Python scalar: an arbitrary-precision [int] or a binary64 [float]. *)
Inductive num : Set :=
| Int (z : Z)
| Float (f : float).

(** [float(z)]: the nearest binary64 value, ties to even;
    [OverflowError] when that is out of range. *)
Definition float_of_int (z : Z) : result float :=
  match binary_normalize prec emax z 0 false with
  | S754_infinity _ => Raise OverflowError
  | sf => Ok (SF2Prim sf)
  end.

(** The constants [2.0] and [1.0] of the denominator, as binary64 sign,
    mantissa and exponent. *)
Definition two_sf : spec_float := S754_finite false 4503599627370496 (-51).
Definition one_sf : spec_float := S754_finite false 4503599627370496 (-52).

Definition as_float (x : num) : result float :=
  match x with
  | Int z => float_of_int z
  | Float f => Ok f
  end.

(** [+], [-], [*]: exact on two ints; otherwise both operands are taken to
    binary64 and the IEEE operation applies (it never raises). *)
Definition arith (fz : Z -> Z -> Z) (ff : float -> float -> float)
           (x y : num) : result num :=
  match x, y with
  | Int a, Int b => Ok (Int (fz a b))
  | _, _ => a <- as_float x ;; b <- as_float y ;; Ok (Float (ff a b))
  end.

Definition add : num -> num -> result num := arith Z.add PrimFloat.add.
Definition sub : num -> num -> result num := arith Z.sub PrimFloat.sub.
Definition mul : num -> num -> result num := arith Z.mul PrimFloat.mul.

(** [a / b] on two ints: the correctly rounded quotient; a zero numerator
    gives a zero signed by the operands. *)
Definition int_truediv (a b : Z) : result float :=
  if (b =? 0)%Z then Raise ZeroDivisionError
  else if (a =? 0)%Z then Ok (if (b <? 0)%Z then neg_zero else zero)
  else
    match SFdiv prec emax
            (S754_finite (a <? 0)%Z (Z.to_pos (Z.abs a)) 0)
            (S754_finite (b <? 0)%Z (Z.to_pos (Z.abs b)) 0) with
    | S754_infinity _ => Raise OverflowError
    | sf => Ok (SF2Prim sf)
    end.

(** [x / y]: true division. A float divisor equal to zero (of either sign)
    raises instead of producing an infinity or a NaN. *)
Definition truediv (x y : num) : result num :=
  match x, y with
  | Int a, Int b => q <- int_truediv a b ;; Ok (Float q)
  | _, _ =>
      a <- as_float x ;;
      b <- as_float y ;;
      if (b =? 0)%float then Raise ZeroDivisionError
      else Ok (Float (a / b)%float)
  end.

(** The exact integer value of a float, compared with [z]. *)
Definition float_eq_int (f : float) (z : Z) : bool :=
  match Prim2SF f with
  | S754_zero _ => (z =? 0)%Z
  | S754_finite s m e =>
      if (0 <=? e)%Z then (z =? cond_Zopp s (Zpos m * 2 ^ e))%Z
      else (z * 2 ^ (- e) =? cond_Zopp s (Zpos m))%Z
  | _ => false
  end.

(** [x == y]: numeric equality, exact across the two types. *)
Definition eq (x y : num) : bool :=
  match x, y with
  | Int a, Int b => (a =? b)%Z
  | Float f, Float g => (f =? g)%float
  | Int a, Float g => float_eq_int g a
  | Float f, Int b => float_eq_int f b
  end.

(** [x == 0 or x == 1]. *)
Definition is_binary (x : num) : bool := eq x (Int 0) || eq x (Int 1).



End Py.

(** ** The counterfactual engine *)

Module CounterFactualSCM.
Import Py.

(** The left operand of the division: [t + y - 1]. *)
Definition numerator (t y : num) : result num :=
  n0 <- add t y ;; sub n0 (Int 1).

(** The right operand: [2*t - 1]. *)
Definition denominator (t : num) : result num :=
  d0 <- mul (Int 2) t ;; sub d0 (Int 1).

(** [return (t + y - 1) / (2*t - 1)]: the operands are evaluated from left
    to right, then divided. *)
Definition abduct (t y : num) : result num :=
  n <- numerator t y ;;
  d <- denominator t ;;
  truediv n d.

(** The body of the lambda: [t * u + (t - 1) * (u - 1)]. *)
Definition equation (t u : num) : result num :=
  p <- mul t u ;;
  a <- sub t (Int 1) ;;
  b <- sub u (Int 1) ;;
  q <- mul a b ;;
  add p q.

(** [return lambda u: t * u + (t - 1) * (u - 1)] *)
Definition modify (t : num) : num -> result num :=
  fun u => equation t u.

(** [return self.modify(t)(u)] *)
Definition predict (u t : num) : result num := modify t u.

(** [predict(abduct(t, y), t)] *)
Definition roundtrip (t y : num) : result num :=
  u <- abduct t y ;; predict u t.

End CounterFactualSCM.

(** ** The engine over the reals *)

Module Exact.
Local Open Scope R_scope.

(** [return (t + y - 1) / (2*t - 1)] *)
Definition abduct (t y : R) : R := (t + y - 1) / (2 * t - 1).

(** [return lambda u: t * u + (t - 1) * (u - 1)] *)
Definition modify (t : R) : R -> R := fun u => t * u + (t - 1) * (u - 1).

(** [return self.modify(t)(u)] *)
Definition predict (u t : R) : R := modify t u.

End Exact.

(** ** One-dimensional numpy arrays *)

Module Numpy.
Local Open Scope float_scope.

(** An elementwise binary operation on two one-dimensional arrays: the
    shapes must agree, or one of them has a single element that is
    stretched; anything else is a [ValueError]. *)
Definition broadcast2 {A B C : Type} (f : A -> B -> C)
           (xs : list A) (ys : list B) : result (list C) :=
  if (length xs =? length ys)%nat
  then Ok (map (fun p => f (fst p) (snd p)) (combine xs ys))
  else
    match xs, ys with
    | [x], _ => Ok (map (f x) ys)
    | _, [y] => Ok (map (fun x => f x y) xs)
    | _, _ => Raise ValueError
    end.

(** [xs > c] for a scalar [c] *)
Definition greater (xs : list float) (c : float) : list bool :=
  map (fun x => c <? x) xs.

(** [c * xs] for a scalar [c] *)
Definition scale (c : float) (xs : list float) : list float :=
  map (fun x => c * x) xs.

(** A boolean taken to float64: [True] is [1.0], [False] is [0.0]. *)
Definition of_bool (b : bool) : float := if b then 1 else 0.

(** [bs + xs] for a boolean array and a float64 array *)
Definition add_bool (bs : list bool) (xs : list float) : result (list float) :=
  broadcast2 (fun b x => of_bool b + x) bs xs.

(** [xs + ys] for two float64 arrays *)
Definition add (xs ys : list float) : result (list float) :=
  broadcast2 PrimFloat.add xs ys.

(** [np.array([c] * n)]: a list repeated a non-positive number of times
    is empty. *)
Definition full (n : Z) (c : float) : list float := repeat c (Z.to_nat n).

End Numpy.

(** ** The process-wide random generator *)

(** What the notebook asks of [np.random]: seeding, one uniform draw on
    [0, 1) and one standard normal draw, each returning the next state. *)
Record generator : Type := {
  rng : Type;
  seed : Z -> rng;
  random_sample : rng -> float * rng;
  standard_normal : rng -> float * rng
}.

Module Random.

(** [n] successive draws. *)
Fixpoint draws {S : Type} (next : S -> float * S) (n : nat) (g : S)
  : list float * S :=
  match n with
  | O => ([], g)
  | Datatypes.S k =>
      let (x, g1) := next g in
      let (xs, g2) := draws next k g1 in
      (x :: xs, g2)
  end.

(** An array of [size] draws; a negative size is a [ValueError] and
    leaves the generator as it was. *)
Definition sized {S : Type} (next : S -> float * S) (size : Z) (g : S)
  : result (list float) * S :=
  if (size <? 0)%Z then (Raise ValueError, g)
  else let (xs, g') := draws next (Z.to_nat size) g in (Ok xs, g').

(** [np.random.randn(size)] *)
Definition randn (G : generator) (size : Z) (g : rng G)
  : result (list float) * rng G :=
  sized (standard_normal G) size g.

End Random.

(** ** The binary scenario *)

Module BookSCM.
Import Numpy Random.

(** The frozen distributions [stats.uniform()] and [stats.norm()]. *)
Inductive distribution : Set := uniform | norm.

Record t : Type := {
  random_seed : option Z;
  u_0 : distribution;
  u_1 : distribution
}.

(** [BookSCM(random_seed)] *)
Definition init (random_seed : option Z) : t :=
  {| random_seed := random_seed; u_0 := uniform; u_1 := norm |}.

(** [d.rvs(size)]: no [random_state] is passed, so the draws come from the
    process-wide generator. *)
Definition rvs (G : generator) (d : distribution) (size : Z) (g : rng G)
  : result (list float) * rng G :=
  match d with
  | uniform => sized (random_sample G) size g
  | norm => sized (standard_normal G) size g
  end.

(** The two structural equations, on the drawn noise:
    [a = u_0 > 0.61; b = (a + 0.5 * u_1) > 0.2]. *)
Definition equations (u0 u1 : list float) : result (list bool * list bool) :=
  let a := greater u0 0.61 in
  s <- add_bool a (scale 0.5 u1) ;;
  let b := greater s 0.2 in
  Ok (a, b).

(** [sample(self, sample_size=100)] *)
Definition sample (G : generator) (self : t) (sample_size : Z) (g : rng G)
  : result (list bool * list bool) * rng G :=
  match rvs G (u_0 self) sample_size g with
  | (Raise e, g1) => (Raise e, g1)
  | (Ok u0, g1) =>
      match rvs G (u_1 self) sample_size g1 with
      | (Raise e, g2) => (Raise e, g2)
      | (Ok u1, g2) => (equations u0 u1, g2)
      end
  end.

(** Two instances made one after the other, each sampled once. *)
Definition two_instances (G : generator) (seed1 seed2 : option Z)
           (sample_size : Z) (g : rng G)
  : result (list bool * list bool) * result (list bool * list bool) :=
  let scm1 := init seed1 in
  let (r1, g1) := sample G scm1 sample_size g in
  let scm2 := init seed2 in
  let (r2, _) := sample G scm2 sample_size g1 in
  (r1, r2).

End BookSCM.

(** ** The correlation of two arrays *)

Module Stats.

(** [stats.pearsonr(x, y)], as far as the variables of the notebook depend
    on it: it raises [ValueError] when the two lengths differ and when they
    are below 2, and raises nothing else on float arrays (a constant input
    is a warning and a NaN). The pair [(r, p)] it returns is bound to names
    that only the [print] of the same cell reads; it is not computed
    here. *)
Definition pearsonr (x y : list float) : result unit :=
  if negb (length x =? length y)%nat then Raise ValueError
  else if (length x <? 2)%nat then Raise ValueError
  else Ok tt.

End Stats.

(** ** The continuous scenario

    The variables the three cells assign, and the generator. A variable
    that no cell has assigned yet is [None]; reading it is a [NameError].
    Every operation of the cells makes a new array, so [a = u_0] can be
    read as a copy. *)

Module Continuous.
Import Numpy Random.

Record notebook (G : generator) : Type := {
  SAMPLE_SIZE : option Z;
  u_0 : option (list float);
  u_1 : option (list float);
  a : option (list float);
  b : option (list float);
  gen : rng G
}.

Arguments SAMPLE_SIZE {G} _.
Arguments u_0 {G} _.
Arguments u_1 {G} _.
Arguments a {G} _.
Arguments b {G} _.
Arguments gen {G} _.

Definition lookup {A : Type} (v : option A) : result A :=
  match v with
  | Some x => Ok x
  | None => Raise NameError
  end.

Section Cells.
Variable G : generator.

(** [[
      SAMPLE_SIZE = 100
      np.random.seed(42)
      u_0 = np.random.randn(SAMPLE_SIZE)
      u_1 = np.random.randn(SAMPLE_SIZE)
      a = u_0
      b = 5 * a + u_1
      r, p = stats.pearsonr(a, b)
    ]] *)
Definition cell_build (nb : notebook G) : result (notebook G) :=
  let n := 100%Z in
  let g0 := seed G 42 in
  match randn G n g0 with
  | (Raise e, _) => Raise e
  | (Ok u0, g1) =>
      match randn G n g1 with
      | (Raise e, _) => Raise e
      | (Ok u1, g2) =>
          let a' := u0 in
          b' <- add (scale 5 a') u1 ;;
          _ <- Stats.pearsonr a' b' ;;
          Ok {| SAMPLE_SIZE := Some n; u_0 := Some u0; u_1 := Some u1;
                a := Some a'; b := Some b'; gen := g2 |}
      end
  end.

(** [[
      a = np.array([c] * SAMPLE_SIZE)
      b = 5 * a + u_1
    ]] *)
Definition intervene_on_A (c : float) (nb : notebook G)
  : result (notebook G) :=
  n <- lookup (SAMPLE_SIZE nb) ;;
  let a' := full n c in
  u1 <- lookup (u_1 nb) ;;
  b' <- add (scale 5 a') u1 ;;
  Ok {| SAMPLE_SIZE := SAMPLE_SIZE nb; u_0 := u_0 nb; u_1 := u_1 nb;
        a := Some a'; b := Some b'; gen := gen nb |}.

(** The cell as the notebook has it: [c = 1.5]. *)
Definition cell_intervene_A : notebook G -> result (notebook G) :=
  intervene_on_A 1.5.

(** [[
      a = u_0
      b = np.random.randn(SAMPLE_SIZE)
      r, p = stats.pearsonr(a, b)
    ]] *)
Definition cell_intervene_B (nb : notebook G) : result (notebook G) :=
  a' <- lookup (u_0 nb) ;;
  n <- lookup (SAMPLE_SIZE nb) ;;
  match randn G n (gen nb) with
  | (Raise e, _) => Raise e
  | (Ok b', g') =>
      _ <- Stats.pearsonr a' b' ;;
      Ok {| SAMPLE_SIZE := SAMPLE_SIZE nb; u_0 := u_0 nb; u_1 := u_1 nb;
            a := Some a'; b := Some b'; gen := g' |}
  end.

End Cells.

End Continuous.

(** ** A small generator to run the model on

    A linear congruential generator, with a normal deviate approximated by
    a sum of twelve uniform ones. It stands in for the Mersenne Twister of
    numpy wherever a statement is evaluated on concrete draws. *)

Module Lcg.
Local Open Scope Z_scope.

Definition modulus : Z := 2147483648.

Definition step (s : Z) : Z := (1103515245 * s + 12345) mod modulus.

Definition unit_float (s : Z) : float :=
  (SF2Prim (binary_normalize prec emax s 0 false) / 2147483648)%float.

Definition uniform_draw (s : Z) : float * Z :=
  let s' := step s in (unit_float s', s').

Definition normal_draw (s : Z) : float * Z :=
  let (xs, s') := Random.draws uniform_draw 12 s in
  ((fold_left PrimFloat.add xs 0 - 6)%float, s').

Definition G : generator :=
  {| rng := Z;
     seed := fun n => n mod modulus;
     random_sample := uniform_draw;
     standard_normal := normal_draw |}.

(** A notebook state with three samples, for concrete evaluation. *)
Definition small_notebook : Continuous.notebook G :=
  Continuous.Build_notebook G
    (Some 3) (Some [0.25; -1; 2]%float) (Some [0.5; -0.125; 4]%float)
    (Some [0.25; -1; 2]%float) (Some [1.75; -5.125; 14]%float) 2024.

End Lcg.

(** ** Function objects

    [modify] returns a function object whose closure holds the local [t] of
    that call in a cell. The heap below is the store of such cells. *)

Module Closures.
Import Py.

Definition heap : Type := list num.

(** A function object made by [modify]: the address of its cell. *)
Record function : Type := { cell : nat }.

Definition M (A : Type) : Type := heap -> A * heap.


Definition bindM {A B : Type} (m : M A) (k : A -> M B) : M B :=
  fun h => let (a, h') := m h in k a h'.

(** [modify(t)]: a fresh cell receives [t]; the lambda refers to it. *)
Definition modify (t : num) : M function :=
  fun h => ({| cell := length h |}, h ++ [t]).

(** [f(u)] for a function object made by [modify]: the body reads the
    cell and writes nothing. *)
Definition call (f : function) (u : num) : M (result num) :=
  fun h =>
    (match nth_error h (cell f) with
     | Some t => CounterFactualSCM.equation t u
     | None => Raise NameError
     end, h).

(** [return self.modify(t)(u)] *)
Definition predict (u t : num) : M (result num) :=
  bindM (modify t) (fun f => call f u).



End Closures.

(** ** The association of the binary scenario

    [buy_book_a[buy_book_b].sum() / buy_book_a[buy_book_b].shape[0]]: the
    share of [True] in [buy_book_a] among the positions where
    [buy_book_b] is [True]. Indexing with a boolean array of another
    length is an [IndexError], unless that array is empty: numpy then
    selects nothing. The sum is an int64 and the length an int;
    numpy divides them as float64 and raises nothing, a zero divisor giving
    a NaN or an infinity. *)

Module Association.
Local Open Scope float_scope.

Inductive selection (A : Type) : Type :=
| Selected (a : A)
| IndexError.

Arguments Selected {A} a.
Arguments IndexError {A}.

(** [xs[bs]] for a boolean array [bs]: the elements of [xs] at the
    positions where [bs] is [True], in order. *)
Definition mask {A : Type} (xs : list A) (bs : list bool)
  : selection (list A) :=
  if (length xs =? length bs)%nat
  then Selected (map fst (filter (fun p : A * bool => snd p) (combine xs bs)))
  else
    match bs with
    | [] => Selected []
    | _ :: _ => IndexError
    end.

(** [xs.sum()] for a boolean array: the number of [True]. *)
Definition sum (xs : list bool) : Z :=
  fold_right (fun (x : bool) (n : Z) => ((if x then 1 else 0) + n)%Z) 0%Z xs.

(** [xs.shape[0]] *)
Definition shape0 {A : Type} (xs : list A) : Z := Z.of_nat (length xs).

(** An integer operand of numpy's true division, taken to float64. *)
Definition to_float64 (z : Z) : float :=
  SF2Prim (binary_normalize prec emax z 0 false).

(** [k / n] for an int64 [k] and an int [n]. *)
Definition true_divide (k n : Z) : float := to_float64 k / to_float64 n.

(** [a[b].sum() / a[b].shape[0]]: the array is indexed twice. *)
Definition proba_given (a b : list bool) : selection float :=
  match mask a b with
  | IndexError => IndexError
  | Selected s1 =>
      match mask a b with
      | IndexError => IndexError
      | Selected s2 => Selected (true_divide (sum s1) (shape0 s2))
      end
  end.

End Association.

(** ** Running the cells of the continuous scenario

    The cells of a notebook can be run in any order and any number of
    times; each one starts from the variables and the generator the
    previous one left. A run stops at the first exception. *)

Module Session.
Import Random Continuous.

Inductive cell : Set :=
| Build
| InterveneA (c : float)
| InterveneB.

Definition is_intervention (k : cell) : bool :=
  match k with
  | Build => false
  | _ => true
  end.

Definition is_InterveneB (k : cell) : bool :=
  match k with
  | InterveneB => true
  | _ => false
  end.

Section Run.
Variable G : generator.

(** A notebook in which no cell has run. *)
Definition fresh (g : rng G) : notebook G :=
  Build_notebook G None None None None None g.

Definition run_cell (k : cell) (nb : notebook G) : result (notebook G) :=
  match k with
  | Build => cell_build G nb
  | InterveneA c => intervene_on_A G c nb
  | InterveneB => cell_intervene_B G nb
  end.

Fixpoint run (ks : list cell) (nb : notebook G) : result (notebook G) :=
  match ks with
  | [] => Ok nb
  | k :: ks' => nb' <- run_cell k nb ;; run ks' nb'
  end.

(** The noise of the first cell: two blocks of 100 normal draws after
    seeding with 42. *)
Definition noise_0 : list float :=
  fst (draws (standard_normal G) 100 (seed G 42)).

Definition noise_1 : list float :=
  fst (draws (standard_normal G) 100
         (snd (draws (standard_normal G) 100 (seed G 42)))).

(** The state of the variables once the first cell has run. *)
Definition built (nb : notebook G) : Prop :=
  SAMPLE_SIZE nb = Some 100%Z /\
  u_0 nb = Some noise_0 /\ u_1 nb = Some noise_1 /\
  (exists A, a nb = Some A /\ length A = 100%nat) /\
  (exists B, b nb = Some B /\ length B = 100%nat).

End Run.

End Session.

(** ** Facts about binary64 rounding

    What the conversions and the division of Python need from the
    specification of binary64 floats (precision 53, least exponent -1074,
    greatest exponent of a mantissa 971): truncation and rounding keep a
    mantissa positive and canonical, and doubling is exact. *)

Module Binary64.
Import Py.
Local Open Scope Z_scope.

Lemma digits2_pos_size (m : positive) : digits2_pos m = Pos.size m.
Proof. induction m as [m IH | m IH |]; simpl; congruence. Qed.

Lemma digits2_log2 (m : positive) :
  Zpos (digits2_pos m) = (Z.log2 (Zpos m) + 1)%Z.
Proof. rewrite digits2_pos_size. destruct m; simpl; lia. Qed.

(** [2 ^ (d - 1) <= m < 2 ^ d] for [d] the number of binary digits of [m]. *)
Lemma digits2_bounds (m : positive) :
  (2 ^ (Zpos (digits2_pos m) - 1) <= Zpos m < 2 ^ Zpos (digits2_pos m))%Z.
Proof.
  rewrite digits2_log2.
  replace (Z.log2 (Zpos m) + 1 - 1)%Z with (Z.log2 (Zpos m)) by lia.
  replace (Z.log2 (Zpos m) + 1)%Z with (Z.succ (Z.log2 (Zpos m))) by lia.
  apply Z.log2_spec. lia.
Qed.

Lemma digits2_unique (m : positive) (d : Z) :
  (2 ^ (d - 1) <= Zpos m < 2 ^ d)%Z -> Zpos (digits2_pos m) = d.
Proof.
  intros H. rewrite digits2_log2.
  assert (0 < d)%Z.
  { destruct (Z.lt_ge_cases 0 d); [assumption |].
    assert (2 ^ d <= 2 ^ 0)%Z by (destruct (Z.eq_dec d 0); [subst; lia|rewrite Z.pow_neg_r; lia]).
    simpl in *. lia. }
  rewrite (Z.log2_unique (Zpos m) (d - 1)); [lia | lia |].
  replace (Z.succ (d - 1)) with d by lia. assumption.
Qed.

Lemma digits2_mul_pow2 (q m : positive) (k : Z) :
  0 <= k -> Zpos q = Zpos m * 2 ^ k ->
  Zpos (digits2_pos q) = Zpos (digits2_pos m) + k.
Proof.
  intros Hk E. apply digits2_unique. rewrite E.
  pose proof (digits2_bounds m) as [Hlo Hhi].
  assert (Hp : 0 < 2 ^ k) by (apply Z.pow_pos_nonneg; lia).
  replace (Zpos (digits2_pos m) + k - 1)
    with ((Zpos (digits2_pos m) - 1) + k) by lia.
  rewrite !Z.pow_add_r by lia. nia.
Qed.

Lemma fexp_eq (x : Z) : fexp prec emax x = Z.max (x - 53) (-1074).
Proof. reflexivity. Qed.

Lemma bounded_canonical (m : positive) (e : Z) :
  SpecFloat.bounded prec emax m e = true ->
  Z.max (Zpos (digits2_pos m) + e - 53) (-1074) = e /\ e <= 971.
Proof.
  unfold SpecFloat.bounded, canonical_mantissa. intros H.
  apply andb_prop in H. destruct H as [H1 H2].
  apply Z.eqb_eq in H1. apply Z.leb_le in H2. rewrite fexp_eq in H1.
  split; [exact H1 | exact H2].
Qed.

Lemma bounded_intro (m : positive) (e : Z) :
  Z.max (Zpos (digits2_pos m) + e - 53) (-1074) = e -> e <= 971 ->
  SpecFloat.bounded prec emax m e = true.
Proof.
  intros C E. unfold SpecFloat.bounded, canonical_mantissa. rewrite fexp_eq.
  apply andb_true_intro. split; [apply Z.eqb_eq; exact C |].
  apply Z.leb_le. exact E.
Qed.

(** One step of [shr_1] halves a non-negative mantissa. *)
Lemma shr_1_m (r : shr_record) :
  (0 <= shr_m r)%Z -> shr_m (shr_1 r) = (shr_m r / 2)%Z.
Proof.
  destruct r as [m b s]. simpl. intros H.
  destruct m as [| [p | p |] | p]; try lia; simpl shr_m.
  - reflexivity.
  - rewrite Pos2Z.inj_xI. apply Z.div_unique with 1%Z; lia.
  - rewrite Pos2Z.inj_xO. apply Z.div_unique with 0%Z; lia.
  - reflexivity.
Qed.

Lemma iter_shr_1_m (p : positive) (r : shr_record) :
  (0 <= shr_m r)%Z ->
  shr_m (SpecFloat.iter_pos shr_1 p r) = (shr_m r / 2 ^ Zpos p)%Z.
Proof.
  revert r. induction p as [p IH | p IH |]; intros r Hr; cbn [SpecFloat.iter_pos].
  - assert (H1 : (0 <= shr_m (shr_1 r))%Z)
      by (rewrite shr_1_m by assumption; apply Z.div_pos; lia).
    assert (H2 : (0 <= shr_m (SpecFloat.iter_pos shr_1 p (shr_1 r)))%Z)
      by (rewrite IH by assumption; apply Z.div_pos; lia).
    rewrite IH, IH, shr_1_m by assumption.
    rewrite !Z.div_div by lia. f_equal.
    replace (Zpos p~1) with (1 + Zpos p + Zpos p)%Z by lia.
    rewrite !Z.pow_add_r by lia. change (2 ^ 1)%Z with 2%Z. ring.
  - assert (H2 : (0 <= shr_m (SpecFloat.iter_pos shr_1 p r))%Z)
      by (rewrite IH by assumption; apply Z.div_pos; lia).
    rewrite IH, IH by assumption.
    rewrite !Z.div_div by lia. f_equal.
    replace (Zpos p~0) with (Zpos p + Zpos p)%Z by lia.
    rewrite Z.pow_add_r by lia. reflexivity.
  - rewrite shr_1_m by assumption. reflexivity.
Qed.

Lemma shr_record_of_loc_m (m : Z) (l : location) :
  shr_m (shr_record_of_loc m l) = m.
Proof. destruct l as [| []]; reflexivity. Qed.

Lemma shr_spec (r : shr_record) (e n : Z) :
  0 <= shr_m r ->
  shr_m (fst (shr r e n)) = shr_m r / 2 ^ Z.max 0 n /\
  snd (shr r e n) = e + Z.max 0 n.
Proof.
  intros Hr. destruct n as [| p | p]; simpl shr; cbn [fst snd].
  - rewrite Z.div_1_r. lia.
  - rewrite iter_shr_1_m by assumption.
    replace (Z.max 0 (Zpos p)) with (Zpos p) by lia. split; reflexivity.
  - replace (Z.max 0 (Zneg p)) with 0 by lia. rewrite Z.div_1_r. lia.
Qed.

Lemma shr_fexp_spec (m : positive) (e : Z) (l : location) :
  let n := Z.max 0 (Z.max (Zpos (digits2_pos m) + e - 53) (-1074) - e) in
  shr_m (fst (shr_fexp prec emax (Zpos m) e l)) = Zpos m / 2 ^ n /\
  snd (shr_fexp prec emax (Zpos m) e l) = e + n.
Proof.
  intros n. unfold shr_fexp.
  destruct (shr_spec (shr_record_of_loc (Zpos m) l) e
              (fexp prec emax (Zdigits2 (Zpos m) + e) - e)) as [Hm Hs];
    [rewrite shr_record_of_loc_m; lia |].
  rewrite Hm, Hs, shr_record_of_loc_m. split; reflexivity.
Qed.

(** Truncating a mantissa that already fits the format changes nothing. *)
Lemma shr_fexp_fits (m : positive) (e : Z) :
  Z.max (Zpos (digits2_pos m) + e - 53) (-1074) <= e ->
  shr_fexp prec emax (Zpos m) e loc_Exact =
  ({| shr_m := Zpos m; shr_r := false; shr_s := false |}, e).
Proof.
  intros H. unfold shr_fexp. cbn [shr_record_of_loc Zdigits2].
  rewrite fexp_eq.
  destruct (Z.max (Zpos (digits2_pos m) + e - 53) (-1074) - e) eqn:E;
    try lia; reflexivity.
Qed.

Lemma shr_1_double (z : Z) :
  0 < z ->
  shr_1 {| shr_m := 2 * z; shr_r := false; shr_s := false |} =
  {| shr_m := z; shr_r := false; shr_s := false |}.
Proof. destruct z; try lia. reflexivity. Qed.

(** Shifting out [p] zero bits is exact. *)
Lemma iter_shr_1_exact (p : positive) (z : Z) :
  0 < z ->
  SpecFloat.iter_pos shr_1 p {| shr_m := z * 2 ^ Zpos p; shr_r := false; shr_s := false |} =
  {| shr_m := z; shr_r := false; shr_s := false |}.
Proof.
  revert z. induction p as [p IH | p IH |]; intros z Hz; cbn [SpecFloat.iter_pos].
  - assert (Hp : 0 < 2 ^ Zpos p) by (apply Z.pow_pos_nonneg; lia).
    replace (z * 2 ^ Zpos p~1) with (2 * ((z * 2 ^ Zpos p) * 2 ^ Zpos p)).
    + rewrite shr_1_double by nia. rewrite IH by nia. now apply IH.
    + replace (Zpos p~1) with (1 + Zpos p + Zpos p) by lia.
      rewrite !Z.pow_add_r by lia. change (2 ^ 1) with 2. ring.
  - assert (Hp : 0 < 2 ^ Zpos p) by (apply Z.pow_pos_nonneg; lia).
    replace (z * 2 ^ Zpos p~0) with ((z * 2 ^ Zpos p) * 2 ^ Zpos p).
    + rewrite IH by nia. now apply IH.
    + replace (Zpos p~0) with (Zpos p + Zpos p) by lia.
      rewrite Z.pow_add_r by lia. ring.
  - change (2 ^ 1) with 2. rewrite Z.mul_comm. now apply shr_1_double.
Qed.

(** Truncating [z * 2^p] by [p] bits gives [z], exactly. *)
Lemma shr_fexp_exact (q z : positive) (p : positive) (e : Z) :
  Zpos q = Zpos z * 2 ^ Zpos p ->
  Z.max (Zpos (digits2_pos q) + e - 53) (-1074) - e = Zpos p ->
  shr_fexp prec emax (Zpos q) e loc_Exact =
  ({| shr_m := Zpos z; shr_r := false; shr_s := false |}, e + Zpos p).
Proof.
  intros Hq Hn. unfold shr_fexp. cbn [shr_record_of_loc Zdigits2].
  rewrite fexp_eq, Hn. cbn [shr]. rewrite Hq.
  now rewrite iter_shr_1_exact by lia.
Qed.

Lemma shl_align_spec (m : positive) (e e' : Z) :
  Zpos (fst (shl_align m e e')) = Zpos m * 2 ^ Z.max 0 (e - e') /\
  snd (shl_align m e e') = Z.min e e'.
Proof.
  unfold shl_align. destruct (e' - e) as [| p | p] eqn:E; cbn [fst snd].
  - replace (Z.max 0 (e - e')) with 0 by lia. lia.
  - replace (Z.max 0 (e - e')) with 0 by lia. lia.
  - replace (Z.max 0 (e - e')) with (Zpos p) by lia. split; [| lia].
    rewrite <- Z.shiftl_mul_pow2 by lia. unfold Z.shiftl.
    apply (Pos.iter_swap_gen _ _ Zpos xO (Z.mul 2)). reflexivity.
Qed.

Lemma round_nearest_even_bounds (m : Z) (l : location) :
  m <= round_nearest_even m l <= m + 1.
Proof.
  destruct l as [| []]; simpl; try lia. destruct (Z.even m); lia.
Qed.

(** Rounding a positive mantissa [m] at an exponent [e] not below the least
    one and not above the exponent [f] its digits ask for: the outcome is a
    canonical mantissa at exponent [f] or [f + 1], or an infinity when that
    exponent is out of range. *)
Lemma binary_round_aux_spec (s : bool) (m : positive) (e : Z) (l : location) :
  let f := Z.max (Zpos (digits2_pos m) + e - 53) (-1074) in
  (-1074) <= e -> e <= f ->
  exists m' e',
    Z.max (Zpos (digits2_pos m') + e' - 53) (-1074) = e' /\
    f <= e' <= f + 1 /\
    binary_round_aux prec emax s (Zpos m) e l =
    if e' <=? 971 then S754_finite s m' e' else S754_infinity s.
Proof.
  intros f He Hf. unfold binary_round_aux.
  destruct (shr_fexp_spec m e l) as [H1 H2].
  destruct (shr_fexp prec emax (Zpos m) e l) as [r1 e1]. cbn [fst snd] in *.
  pose proof (digits2_bounds m) as [Hlo Hhi].
  set (d := Zpos (digits2_pos m)) in *.
  pose proof (round_nearest_even_bounds (shr_m r1) (loc_of_shr_record r1)) as Hr.
  assert (E1 : e1 = f) by (unfold f in *; lia).
  (* the truncated mantissa has the digits its exponent asks for *)
  assert (Hm1 : 0 < shr_m r1 /\
                Z.max (Z.log2 (shr_m r1) + 1 + e1 - 53) (-1074) = e1 /\
                (e1 = e \/ Z.log2 (shr_m r1) = 52)).
  { destruct (Z.eq_dec f e) as [Eq | Ne]; unfold f in *.
    - replace (Z.max 0 (Z.max (d + e - 53) (-1074) - e)) with 0 in * by lia.
      change (2 ^ 0) with 1 in H1. rewrite Z.div_1_r in H1.
      rewrite H1.
      assert (Z.log2 (Zpos m) + 1 = d)
        by (unfold d; symmetry; apply digits2_log2).
      lia.
    - assert (Hd : 53 < d) by lia.
      replace (Z.max 0 (Z.max (d + e - 53) (-1074) - e)) with (d - 53) in * by lia.
      assert (Hp : 0 < 2 ^ (d - 53)) by (apply Z.pow_pos_nonneg; lia).
      assert (L : 2 ^ 52 <= shr_m r1).
      { rewrite H1. apply Z.div_le_lower_bound; [lia |].
        rewrite Z.mul_comm, <- Z.pow_add_r by lia.
        replace (52 + (d - 53)) with (d - 1) by lia. exact Hlo. }
      assert (U : shr_m r1 < 2 ^ 53).
      { rewrite H1. apply Z.div_lt_upper_bound; [lia |].
        rewrite <- Z.pow_add_r by lia.
        replace (d - 53 + 53) with d by lia. exact Hhi. }
      assert (Lg : Z.log2 (shr_m r1) = 52)
        by (apply Z.log2_unique; [lia | split; [exact L | exact U]]).
      assert (0 < 2 ^ 52) by (apply Z.pow_pos_nonneg; lia).
      rewrite Lg. split; [lia |]. split; [lia | right; reflexivity]. }
  destruct Hm1 as (P1 & C1 & K1).
  destruct (round_nearest_even (shr_m r1) (loc_of_shr_record r1))
    as [| m2 | m2] eqn:R; try lia.
  pose proof (Z.log2_spec (shr_m r1) P1) as [Llo Lhi].
  set (g := Z.log2 (shr_m r1)) in *.
  assert (Hg : 0 <= g) by apply Z.log2_nonneg.
  destruct (Z.eq_dec (Zpos m2) (2 ^ Z.succ g)) as [Carry | NoCarry].
  - (* the rounding carried into a new digit *)
    assert (D2 : Zpos (digits2_pos m2) = g + 2).
    { rewrite digits2_log2, Carry, Z.log2_pow2 by lia. lia. }
    destruct (Z.eq_dec g 52) as [G52 | G52].
    + assert (Q : Zpos m2 = Zpos 4503599627370496 * 2 ^ 1)
        by (rewrite Carry, G52; reflexivity).
      rewrite (shr_fexp_exact m2 4503599627370496 1 e1 Q) by lia.
      cbn [shr_m].
      exists 4503599627370496%positive, (e1 + 1).
      change (Zpos (digits2_pos 4503599627370496)) with 53.
      split; [lia |]. split; [lia | reflexivity].
    + assert (E1' : e1 = e) by (destruct K1; [assumption | contradiction]).
      rewrite shr_fexp_fits by lia. cbn [shr_m].
      exists m2, e1. split; [lia |]. split; [lia | reflexivity].
  - assert (D2 : Zpos (digits2_pos m2) = g + 1).
    { apply digits2_unique. replace (g + 1 - 1) with g by lia.
      replace (g + 1) with (Z.succ g) by lia. lia. }
    rewrite shr_fexp_fits by lia. cbn [shr_m].
    exists m2, e1. split; [lia |]. split; [lia | reflexivity].
Qed.

(** The same for [binary_round], which first aligns the mantissa. *)
Lemma binary_round_spec (s : bool) (m : positive) (e : Z) :
  let f := Z.max (Zpos (digits2_pos m) + e - 53) (-1074) in
  (-1074) <= e ->
  exists m' e',
    Z.max (Zpos (digits2_pos m') + e' - 53) (-1074) = e' /\
    f <= e' <= f + 1 /\
    binary_round prec emax s m e =
    if e' <=? 971 then S754_finite s m' e' else S754_infinity s.
Proof.
  intros f He. unfold binary_round. rewrite fexp_eq. fold f.
  destruct (shl_align_spec m e f) as [Hm Hs].
  destruct (shl_align m e f) as [mz ez]. cbn [fst snd] in *.
  assert (Df : Zpos (digits2_pos mz) = Zpos (digits2_pos m) + Z.max 0 (e - f))
    by (apply digits2_mul_pow2; [lia | exact Hm]).
  assert (Ef : Z.max (Zpos (digits2_pos mz) + ez - 53) (-1074) = f)
    by (unfold f in *; lia).
  destruct (binary_round_aux_spec s mz ez loc_Exact) as (m' & e' & C & B & R);
    [unfold f in *; lia | lia |].
  exists m', e'. rewrite Ef in B. auto.
Qed.

(** A non-zero integer taken to binary64 is an infinity or a canonical
    finite float, never a zero. *)
Lemma binary_normalize_spec (z : Z) :
  z <> 0 ->
  exists m' e',
    Z.max (Zpos (digits2_pos m') + e' - 53) (-1074) = e' /\
    e' <= Z.max (Z.log2 (Z.abs z) + 1 - 53) (-1074) + 1 /\
    binary_normalize prec emax z 0 false =
    if e' <=? 971 then S754_finite (z <? 0) m' e'
    else S754_infinity (z <? 0).
Proof.
  intros Hz. destruct z as [| p | p]; [contradiction | |]; cbn [binary_normalize];
    [destruct (binary_round_spec false p 0) as (m' & e' & C & B & R)
    | destruct (binary_round_spec true p 0) as (m' & e' & C & B & R)];
    try lia; exists m', e'; (split; [exact C |]);
    (split; [| exact R]); cbn [Z.abs]; rewrite <- digits2_log2; lia.
Qed.

(** Only the integer zero is taken to a zero. *)
Lemma binary_normalize_zero (D e : Z) (s' : bool) :
  (-1074) <= e ->
  binary_normalize prec emax D e false = S754_zero s' -> D = 0.
Proof.
  intros He. destruct D as [| p | p]; cbn [binary_normalize];
    [reflexivity | |]; intros H;
    [destruct (binary_round_spec false p e He) as (m' & e' & _ & _ & R)
    | destruct (binary_round_spec true p e He) as (m' & e' & _ & _ & R)];
    rewrite R in H; destruct (e' <=? 971); discriminate.
Qed.

Lemma SFeqb_zero (x : spec_float) :
  SFeqb x (S754_zero false) = true -> exists s, x = S754_zero s.
Proof.
  destruct x as [s | [|] | | [|] m e]; try discriminate.
  intros _. now exists s.
Qed.

(** Rounding [z * 2^p] at an exponent [p] below its own: [z] at [e + p]. *)
Lemma binary_round_aux_exact (s : bool) (q z p : positive) (e : Z) :
  Zpos q = Zpos z * 2 ^ Zpos p ->
  Z.max (Zpos (digits2_pos q) + e - 53) (-1074) - e = Zpos p ->
  binary_round_aux prec emax s (Zpos q) e loc_Exact =
  if e + Zpos p <=? 971 then S754_finite s z (e + Zpos p)
  else S754_infinity s.
Proof.
  intros Hq Hn. unfold binary_round_aux.
  rewrite (shr_fexp_exact q z p e Hq Hn).
  cbn [shr_m loc_of_shr_record round_nearest_even].
  rewrite shr_fexp_fits; [reflexivity |].
  rewrite (digits2_mul_pow2 q z (Zpos p)) in Hn by (lia || assumption). lia.
Qed.

(** Doubling a finite float is exact, unless it overflows. *)
Lemma mul_two_finite (s : bool) (m : positive) (e : Z) :
  SpecFloat.bounded prec emax m e = true ->
  SFmul prec emax two_sf (S754_finite s m e) = S754_infinity s \/
  exists m' e',
    SFmul prec emax two_sf (S754_finite s m e) = S754_finite s m' e' /\
    (-1074) <= e' /\
    Zpos m' * 2 ^ (e' - (-1074)) = Zpos m * 2 ^ (e + 1 - (-1074)).
Proof.
  intros B. destruct (bounded_canonical m e B) as [C E].
  unfold two_sf, SFmul. cbn [xorb].
  set (q := (4503599627370496 * m)%positive).
  assert (Hq : Zpos q = Zpos m * 2 ^ 52)
    by (unfold q; rewrite Pos2Z.inj_mul; change (2 ^ 52) with 4503599627370496; ring).
  assert (Dq : Zpos (digits2_pos q) = Zpos (digits2_pos m) + 52)
    by (apply digits2_mul_pow2; [lia | exact Hq]).
  pose proof (digits2_bounds m) as [_ Hd].
  assert (Hd1 : 1 <= Zpos (digits2_pos m)) by lia.
  destruct (Z.eq_dec (Zpos (digits2_pos m)) 53) as [D53 | D53].
  - (* a normal number: the mantissa stays, the exponent goes up by one *)
    rewrite (binary_round_aux_exact s q m 52 (-51 + e) Hq) by lia.
    replace (-51 + e + 52) with (e + 1) by lia.
    destruct (e + 1 <=? 971); [right | left; reflexivity].
    exists m, (e + 1). split; [reflexivity |]. split; [lia | reflexivity].
  - (* a subnormal number: the mantissa doubles at the least exponent *)
    assert (Ee : e = (-1074)) by lia. subst e.
    assert (Hq' : Zpos q = Zpos (xO m) * 2 ^ 51).
    { rewrite Hq. change (Zpos (xO m)) with (2 * Zpos m).
      change (2 ^ 52) with (2 * 2 ^ 51). ring. }
    rewrite (binary_round_aux_exact s q (xO m) 51 (-51 + (-1074)) Hq') by lia.
    right. exists (xO m), (-1074). split; [reflexivity |]. split; [lia |].
    change (Zpos (xO m)) with (2 * Zpos m). change ((-1074) + 1 - (-1074)) with 1.
    change ((-1074) - (-1074)) with 0. change (2 ^ 1) with 2. change (2 ^ 0) with 1.
    ring.
Qed.

(** A finite float minus one is a zero only if the float stands for 1. *)
Lemma sub_one_zero (s : bool) (m : positive) (e : Z) :
  (-1074) <= e ->
  SFeqb (SFsub prec emax (S754_finite s m e) one_sf) (S754_zero false) = true ->
  s = false /\ Zpos m * 2 ^ (e - (-1074)) = 2 ^ 1074.
Proof.
  intros He H. apply SFeqb_zero in H. destruct H as [s' H].
  unfold one_sf, SFsub in H. cbv zeta in H.
  apply binary_normalize_zero in H; [| lia].
  destruct (shl_align_spec m e (Z.min e (-52))) as [H1 _].
  destruct (shl_align_spec 4503599627370496 (-52) (Z.min e (-52))) as [H2 _].
  rewrite H1, H2 in H. clear H1 H2. cbn [cond_Zopp] in H.
  change (Zpos 4503599627370496) with (2 ^ 52) in H.
  assert (P1 : 0 < 2 ^ Z.max 0 (e - Z.min e (-52)))
    by (apply Z.pow_pos_nonneg; lia).
  assert (P2 : 0 < 2 ^ 52 * 2 ^ Z.max 0 (-52 - Z.min e (-52)))
    by (apply Z.mul_pos_pos; apply Z.pow_pos_nonneg; lia).
  destruct s; cbn [cond_Zopp] in H; [nia |]. split; [reflexivity |].
  replace (e - (-1074)) with (e + 1074) by lia.
  destruct (Z.le_gt_cases e (-52)) as [L | G].
  - replace (Z.max 0 (e - Z.min e (-52))) with 0 in H by lia.
    replace (Z.max 0 (-52 - Z.min e (-52))) with (-52 - e) in H by lia.
    change (2 ^ 0) with 1 in H.
    replace (Zpos m) with (2 ^ 52 * 2 ^ (-52 - e)) by lia.
    rewrite <- !Z.pow_add_r by lia. f_equal. lia.
  - replace (Z.max 0 (e - Z.min e (-52))) with (e + 52) in H by lia.
    replace (Z.max 0 (-52 - Z.min e (-52))) with 0 in H by lia.
    change (2 ^ 0) with 1 in H.
    replace (e + 1074) with ((e + 52) + 1022) by lia.
    rewrite Z.pow_add_r by lia. rewrite Z.mul_assoc.
    replace (Zpos m * 2 ^ (e + 52)) with (2 ^ 52) by lia.
    rewrite <- Z.pow_add_r by lia. reflexivity.
Qed.

(** The only canonical float that stands for one half. *)
Lemma canonical_half (m : positive) (e : Z) :
  SpecFloat.bounded prec emax m e = true ->
  Zpos m * 2 ^ (e + 1 - (-1074)) = 2 ^ 1074 ->
  m = 4503599627370496%positive /\ e = -53.
Proof.
  intros B H. destruct (bounded_canonical m e B) as [C E].
  set (k := e + 1 - (-1074)) in *.
  assert (Hk : 1 <= k) by lia.
  assert (Hk' : k <= 1074).
  { destruct (Z.le_gt_cases k 1074) as [? | G]; [assumption |].
    assert (2 ^ 1074 < 2 ^ k) by (apply Z.pow_lt_mono_r; lia).
    assert (0 < 2 ^ 1074) by (apply Z.pow_pos_nonneg; lia). nia. }
  assert (Hm : Zpos m = 2 ^ (1074 - k)).
  { apply (Z.mul_reg_r _ _ (2 ^ k)).
    - apply Z.pow_nonzero; lia.
    - rewrite H, <- Z.pow_add_r by lia. f_equal. lia. }
  assert (Hd : Zpos (digits2_pos m) = 1074 - k + 1).
  { rewrite digits2_log2, Hm, Z.log2_pow2 by lia. reflexivity. }
  rewrite Hd in C.
  assert (Ee : e = -53) by lia. split; [| exact Ee].
  subst e. change (1074 - k) with 52 in Hm.
  change (2 ^ 52) with (Zpos 4503599627370496) in Hm. congruence.
Qed.

(** [2 * t - 1] is a zero for [t = 0.5] and for no other float. *)
Lemma double_minus_one_zero (t : float) :
  (2 * t - 1 =? 0)%float = true -> t = 0.5%float.
Proof.
  intros H. rewrite eqb_spec, sub_spec, mul_spec in H.
  change (Prim2SF 2) with two_sf in H.
  change (Prim2SF 1) with one_sf in H.
  change (Prim2SF 0) with (S754_zero false) in H.
  unfold SF64sub, SF64mul in H.
  pose proof (Prim2SF_valid t) as V.
  rewrite <- (SF2Prim_Prim2SF t).
  destruct (Prim2SF t) as [s | s | | s m e].
  - destruct s; cbv in H; discriminate.
  - destruct s; cbv in H; discriminate.
  - cbv in H; discriminate.
  - cbn [valid_binary] in V.
    destruct (mul_two_finite s m e V) as [P | (m' & e' & P & He' & Hv)];
      rewrite P in H.
    + destruct s; cbv in H; discriminate.
    + apply sub_one_zero in H; [| assumption]. destruct H as [-> Hm'].
      rewrite Hv in Hm'.
      destruct (canonical_half m e V Hm') as [-> ->].
      vm_compute. reflexivity.
Qed.

End Binary64.

(** ** Facts about Python numbers *)

Module PyFacts.
Import Py Binary64.
Local Open Scope Z_scope.

Lemma float_of_spec (f : float) (sf : spec_float) :
  Prim2SF f = sf -> f = SF2Prim sf.
Proof. intros <-. symmetry. apply SF2Prim_Prim2SF. Qed.

Lemma cond_Zopp_pos (s : bool) (x z : Z) :
  (0 < x)%Z -> (0 <= z)%Z -> z = cond_Zopp s x -> s = false /\ z = x.
Proof. destruct s; simpl; intros; split; lia || reflexivity. Qed.

(** A float equal to the integer 0 is one of the two zeros. *)
Lemma float_eq_int_0 (f : float) :
  float_eq_int f 0 = true -> f = zero \/ f = neg_zero.
Proof.
  unfold float_eq_int. destruct (Prim2SF f) as [s | s | | s m e] eqn:E;
    try discriminate; intros H.
  - apply float_of_spec in E. subst f. destruct s; [right | left]; reflexivity.
  - exfalso. assert (Hp : (0 < 2 ^ e)%Z \/ (e < 0)%Z) by
      (destruct (Z.lt_ge_cases e 0); [right | left; apply Z.pow_pos_nonneg]; lia).
    destruct (0 <=? e)%Z eqn:He; apply Z.eqb_eq in H.
    + apply Z.leb_le in He. destruct Hp as [Hp | Hp]; [| lia].
      apply cond_Zopp_pos in H; [| nia | lia]. nia.
    + apply cond_Zopp_pos in H; lia.
Qed.

(** A float equal to the integer 1 is [1.0]. *)
Lemma float_eq_int_1 (f : float) : float_eq_int f 1 = true -> f = one.
Proof.
  unfold float_eq_int. pose proof (Prim2SF_valid f) as V.
  destruct (Prim2SF f) as [s | s | | s m e] eqn:E; try discriminate; intros H.
  apply float_of_spec in E. subst f.
  simpl in V. apply andb_prop in V. destruct V as [C _].
  unfold canonical_mantissa, fexp in C. apply Z.eqb_eq in C.
  rewrite digits2_log2 in C.
  destruct (0 <=? e)%Z eqn:He; apply Z.eqb_eq in H.
  - apply Z.leb_le in He.
    assert (Hp : (0 < 2 ^ e)%Z) by (apply Z.pow_pos_nonneg; lia).
    apply cond_Zopp_pos in H; [| nia | lia]. destruct H as [-> H].
    assert (Zpos m = 1 /\ 2 ^ e = 1)%Z as [Hm _] by nia.
    rewrite Hm in C. change (Z.log2 1) with 0%Z in C.
    unfold SpecFloat.emin, prec, emax in C. lia.
  - apply Z.leb_gt in He.
    assert (Hp : (0 < 2 ^ (- e))%Z) by (apply Z.pow_pos_nonneg; lia).
    apply cond_Zopp_pos in H; [| lia | lia]. destruct H as [-> H].
    rewrite Z.mul_1_l in H. rewrite <- H in C.
    rewrite Z.log2_pow2 in C by lia.
    unfold SpecFloat.emin, prec, emax in C.
    assert (e = -52)%Z by lia. subst e.
    change (2 ^ (- -52))%Z with 4503599627370496%Z in H.
    injection H as <-. reflexivity.
Qed.

(** The values that pass [t == 0 or t == 1]. *)
Lemma is_binary_cases (t : num) :
  is_binary t = true ->
  t = Int 0 \/ t = Int 1 \/ t = Float zero \/ t = Float neg_zero \/ t = Float one.
Proof.
  unfold is_binary. intros H. apply orb_prop in H.
  destruct t as [z | f]; simpl in H.
  - destruct H as [H | H]; apply Z.eqb_eq in H; subst; auto.
  - destruct H as [H | H].
    + apply float_eq_int_0 in H. destruct H as [-> | ->]; auto.
    + apply float_eq_int_1 in H. subst. auto 6.
Qed.

Lemma valid_of_canonical (s : bool) (m : positive) (e : Z) :
  Z.max (Zpos (digits2_pos m) + e - 53) (-1074) = e -> e <= 971 ->
  Prim2SF (SF2Prim (S754_finite s m e)) = S754_finite s m e.
Proof.
  intros C E. apply Prim2SF_SF2Prim. cbn [SpecFloat.valid_binary].
  now apply bounded_intro.
Qed.

(** A non-zero int converts to a non-zero float, if it converts at all. *)
Lemma float_of_int_nonzero (z : Z) (g : float) :
  z <> 0 -> float_of_int z = Ok g -> (g =? 0)%float = false.
Proof.
  intros Hz. unfold float_of_int.
  destruct (binary_normalize_spec z Hz) as (m & e & C & _ & R). rewrite R.
  destruct (Z.leb_spec e 971) as [E | E]; [| discriminate].
  intros H. cbv iota beta in H.
  replace g with (SF2Prim (S754_finite (z <? 0) m e)) by congruence.
  rewrite eqb_spec, valid_of_canonical by assumption.
  change (Prim2SF 0) with (S754_zero false).
  destruct (z <? 0); reflexivity.
Qed.

(** An int below [2^1023] in magnitude converts. *)
Lemma float_of_int_returns (z : Z) :
  Z.abs z < 2 ^ 1023 -> returns (float_of_int z).
Proof.
  intros Hz. unfold float_of_int.
  destruct (Z.eq_dec z 0) as [-> | Nz]; [eexists; reflexivity |].
  destruct (binary_normalize_spec z Nz) as (m & e & C & B & R). rewrite R.
  assert (L : Z.log2 (Z.abs z) < 1023) by (apply Z.log2_lt_pow2; lia).
  destruct (Z.leb_spec e 971) as [E | E]; [eexists; reflexivity | lia].
Qed.

Lemma div_eucl_1 (a : Z) : Z.div_eucl a 1 = (a, 0).
Proof.
  pose proof (Z.div_eucl_eq a 1 ltac:(lia)) as H.
  pose proof (Z.mod_pos_bound a 1 ltac:(lia)) as B.
  unfold Z.modulo in B. destruct (Z.div_eucl a 1) as [q r].
  f_equal; lia.
Qed.

(** Dividing an int below [2^1023] in magnitude by 1 or -1 returns. *)
Lemma int_truediv_unit (a b : Z) :
  b = 1 \/ b = -1 -> Z.abs a < 2 ^ 1023 -> returns (int_truediv a b).
Proof.
  intros Hb Ha. unfold int_truediv.
  destruct (Z.eqb_spec b 0) as [? | _]; [lia |].
  destruct (Z.eqb_spec a 0) as [? | Na]; [eexists; reflexivity |].
  replace (Z.to_pos (Z.abs b)) with 1%positive by (destruct Hb; subst; reflexivity).
  set (pa := Z.to_pos (Z.abs a)).
  assert (Hpa : Zpos pa = Z.abs a) by (unfold pa; rewrite Z2Pos.id; lia).
  unfold SFdiv, SFdiv_core_binary. cbn [Zdigits2 digits2_pos].
  rewrite fexp_eq.
  set (d := Zpos (digits2_pos pa)).
  assert (Hd : d <= 1023).
  { unfold d. rewrite digits2_log2, Hpa.
    assert (Z.log2 (Z.abs a) < 1023) by (apply Z.log2_lt_pow2; lia). lia. }
  assert (Hd1 : 1 <= d) by (unfold d; lia).
  replace (d + 0 - (1 + 0) - 53) with (d - 54) by lia.
  change (0 - 0) with 0.
  set (e' := Z.min (Z.max (d - 54) (-1074)) 0).
  set (q := match 0 - e' with
            | 0 => Zpos pa
            | Zpos _ => Z.shiftl (Zpos pa) (0 - e')
            | Zneg _ => 0
            end).
  assert (Hq : q = Zpos pa * 2 ^ (- e')).
  { unfold q. destruct (0 - e') eqn:E; try lia.
    - replace (- e') with 0 by lia. change (2 ^ 0) with 1. lia.
    - rewrite Z.shiftl_mul_pow2 by lia. f_equal. f_equal. lia. }
  rewrite div_eucl_1.
  assert (Pq : 0 < q)
    by (rewrite Hq; apply Z.mul_pos_pos; [lia | apply Z.pow_pos_nonneg; lia]).
  destruct q as [| pq | pq]; try lia.
  assert (Dq : Zpos (digits2_pos pq) = d - e')
    by (unfold d; rewrite (digits2_mul_pow2 pq pa (- e')); [lia | lia | exact Hq]).
  destruct (binary_round_aux_spec (xorb (a <? 0) (b <? 0)) pq e'
              (new_location 1 0))
    as (m' & e'' & C & B & R); [lia | lia |].
  rewrite R. rewrite Dq in B.
  destruct (Z.leb_spec e'' 971) as [E | E]; [eexists; reflexivity | lia].
Qed.




End PyFacts.

(** ** Equations of the engine on Python numbers *)

Module EngineFacts.
Import Py Binary64 PyFacts CounterFactualSCM.
Local Open Scope float_scope.

Lemma float_of_int_raise (z : Z) (e : exn) :
  float_of_int z = Raise e -> e = OverflowError.
Proof.
  unfold float_of_int.
  destruct (binary_normalize prec emax z 0 false); congruence.
Qed.

Lemma int_truediv_raise (a b : Z) (e : exn) :
  b <> 0%Z -> int_truediv a b = Raise e -> e = OverflowError.
Proof.
  intros Hb. unfold int_truediv.
  destruct (Z.eqb_spec b 0) as [? | _]; [contradiction |].
  destruct (a =? 0)%Z; [discriminate |].
  destruct (SFdiv _ _ _ _); congruence.
Qed.

Lemma abduct_Float_Float (t y : float) :
  abduct (Float t) (Float y) =
  if (2 * t - 1 =? 0) then Raise ZeroDivisionError
  else Ok (Float ((t + y - 1) / (2 * t - 1))).
Proof. reflexivity. Qed.

Lemma abduct_Float_Int (t : float) (z : Z) :
  abduct (Float t) (Int z) =
  y <- float_of_int z ;; abduct (Float t) (Float y).
Proof.
  unfold abduct, numerator. cbn [add arith as_float bind].
  destruct (float_of_int z); reflexivity.
Qed.

Lemma abduct_Int_Int (t y : Z) :
  abduct (Int t) (Int y) =
  q <- int_truediv (t + y - 1) (2 * t - 1) ;; Ok (Float q).
Proof. reflexivity. Qed.

Lemma modify_Int_Int (t u : Z) :
  modify (Int t) (Int u) = Ok (Int (t * u + (t - 1) * (u - 1))).
Proof. reflexivity. Qed.


Lemma abduct_Int_Float (a : Z) (y : float) :
  abduct (Int a) (Float y) =
  a' <- float_of_int a ;;
  d <- float_of_int (2 * a - 1) ;;
  if (d =? 0) then Raise ZeroDivisionError
  else Ok (Float ((a' + y - 1) / d)).
Proof.
  unfold abduct, numerator, denominator.
  cbn [add sub mul arith as_float bind].
  destruct (float_of_int a) as [a' | e]; [| reflexivity].
  cbn [bind as_float]. unfold truediv. cbn [as_float bind].
  change (float_of_int 1) with (Ok 1). cbn [bind].
  destruct (float_of_int (2 * a - 1)); reflexivity.
Qed.

(** [abduct] raises [ZeroDivisionError] for the float [0.5] and for no
    other treatment, whatever the outcome. *)
Lemma abduct_zero_division (t y : num) :
  abduct t y = Raise ZeroDivisionError -> t = Float 0.5.
Proof.
  destruct t as [a | t], y as [b | y].
  - rewrite abduct_Int_Int.
    destruct (int_truediv (a + b - 1) (2 * a - 1)) as [q | e] eqn:E;
      [discriminate |].
    apply int_truediv_raise in E; [subst; discriminate | lia].
  - rewrite abduct_Int_Float.
    destruct (float_of_int a) as [a' | e] eqn:Ea; cbn [bind].
    + destruct (float_of_int (2 * a - 1)) as [d | e] eqn:Ed; cbn [bind].
      * assert (Nz : (2 * a - 1 <> 0)%Z) by lia.
        rewrite (float_of_int_nonzero _ _ Nz Ed). discriminate.
      * apply float_of_int_raise in Ed. subst. discriminate.
    + apply float_of_int_raise in Ea. subst. discriminate.
  - rewrite abduct_Float_Int.
    destruct (float_of_int b) as [y | e] eqn:Eb; cbn [bind].
    + rewrite abduct_Float_Float.
      destruct (2 * t - 1 =? 0) eqn:D; [| discriminate].
      intros _. f_equal. now apply double_minus_one_zero.
    + apply float_of_int_raise in Eb. subst. discriminate.
  - rewrite abduct_Float_Float.
    destruct (2 * t - 1 =? 0) eqn:D; [| discriminate].
    intros _. f_equal. now apply double_minus_one_zero.
Qed.

(** Whatever [abduct] raises is a [ZeroDivisionError] or an
    [OverflowError]. *)
Lemma abduct_raise (t y : num) (e : exn) :
  abduct t y = Raise e -> e = ZeroDivisionError \/ e = OverflowError.
Proof.
  destruct t as [a | t], y as [b | y].
  - rewrite abduct_Int_Int.
    destruct (int_truediv (a + b - 1) (2 * a - 1)) as [q | e'] eqn:E;
      [discriminate |].
    apply int_truediv_raise in E; [| lia]. cbn [bind]. intros H. right. congruence.
  - rewrite abduct_Int_Float.
    destruct (float_of_int a) as [a' | e'] eqn:Ea; cbn [bind].
    + destruct (float_of_int (2 * a - 1)) as [d | e'] eqn:Ed; cbn [bind].
      * destruct (d =? 0); [| discriminate]. intros H. left. congruence.
      * apply float_of_int_raise in Ed. intros H. right. congruence.
    + apply float_of_int_raise in Ea. intros H. right. congruence.
  - rewrite abduct_Float_Int.
    destruct (float_of_int b) as [y | e'] eqn:Eb; cbn [bind].
    + rewrite abduct_Float_Float.
      destruct (2 * t - 1 =? 0); [| discriminate]. intros H. left. congruence.
    + apply float_of_int_raise in Eb. intros H. right. congruence.
  - rewrite abduct_Float_Float.
    destruct (2 * t - 1 =? 0); [| discriminate]. intros H. left. congruence.
Qed.

(** On ints the arithmetic of Python is exact: the operands of the division
    and the value of the equation are those of the real formulas. *)
Lemma operands_Int_exact (t y : Z) :
  numerator (Int t) (Int y) = Ok (Int (t + y - 1)) /\
  denominator (Int t) = Ok (Int (2 * t - 1)) /\
  (IZR (t + y - 1) / IZR (2 * t - 1))%R = Exact.abduct (IZR t) (IZR y).
Proof.
  repeat split. unfold Exact.abduct.
  now rewrite !minus_IZR, plus_IZR, mult_IZR.
Qed.

Lemma modify_Int_exact (t u : Z) :
  exists v : Z,
    modify (Int t) (Int u) = Ok (Int v) /\
    IZR v = Exact.modify (IZR t) (IZR u).
Proof.
  eexists. split; [apply modify_Int_Int |]. unfold Exact.modify.
  now rewrite plus_IZR, !mult_IZR, !minus_IZR.
Qed.

End EngineFacts.

(** ** Properties of the counterfactual engine *)

Module Engine.
Import Py Binary64 PyFacts CounterFactualSCM EngineFacts.

(** At [t = 0.5] with a float outcome no conversion can fail and the
    denominator is a zero. *)
Lemma abduct_half_Float (y : float) :
  abduct (Float 0.5) (Float y) = Raise ZeroDivisionError.
Proof. rewrite abduct_Float_Float. reflexivity. Qed.

(** C7: [abduct] called with [t = 0.5] raises for every outcome [y]: the
    division by the zero denominator raises [ZeroDivisionError] (an int
    outcome too large for a float raises [OverflowError] before that); no
    infinity and no NaN is returned. *)
Theorem abduct_half_raises :
  (forall y : float, abduct (Float 0.5) (Float y) = Raise ZeroDivisionError) /\
  (forall y : Z,
      abduct (Float 0.5) (Int y) = Raise ZeroDivisionError \/
      abduct (Float 0.5) (Int y) = Raise OverflowError) /\
  (forall y : num, raises (abduct (Float 0.5) y)) /\
  denominator (Float 0.5) = Ok (Float 0).
Proof.
  assert (HZ : forall y : Z,
             abduct (Float 0.5) (Int y) = Raise ZeroDivisionError \/
             abduct (Float 0.5) (Int y) = Raise OverflowError).
  { intros y. rewrite abduct_Float_Int.
    destruct (float_of_int y) as [f | e] eqn:E; simpl.
    - left. apply abduct_half_Float.
    - right. apply float_of_int_raise in E. now subst. }
  split; [exact abduct_half_Float |].
  split; [exact HZ |].
  split; [| reflexivity].
  intros [z | f].
  - destruct (HZ z) as [H | H]; rewrite H; eexists; reflexivity.
  - rewrite abduct_half_Float. eexists; reflexivity.
Qed.

(** C8: the worked example of the notebook: [abduct(t=1, y=1)] is [1.0],
    [predict(u=1.0, t=0)] is [0.0], and so is the prediction made from the
    abducted value. *)
Theorem worked_example :
  abduct (Int 1) (Int 1) = Ok (Float 1) /\
  predict (Float 1) (Int 0) = Ok (Float 0) /\
  (u <- abduct (Int 1) (Int 1) ;; predict u (Int 0)) = Ok (Float 0).
Proof. repeat split; vm_compute; reflexivity. Qed.

Ltac binary_cases H :=
  apply is_binary_cases in H;
  destruct H as [-> | [-> | [-> | [-> | ->]]]].

(** For a binary treatment the denominator is [1] or [-1]. *)
Lemma denominator_binary (t : num) :
  is_binary t = true ->
  exists d, denominator t = Ok d /\ eq d (Int 1) || eq d (Int (-1)) = true.
Proof.
  intros H. binary_cases H;
    eexists; (split; [reflexivity | vm_compute; reflexivity]).
Qed.

Lemma abduct_binary_Float (t : num) (y : float) :
  is_binary t = true -> returns (abduct t (Float y)).
Proof. intros H. binary_cases H; eexists; reflexivity. Qed.

Lemma abduct_binary_in_range (t : num) (y : Z) :
  is_binary t = true -> (Z.abs y < 2 ^ 1022)%Z -> returns (abduct t (Int y)).
Proof.
  intros H Hy.
  assert (P : (2 ^ 1023 = 2 * 2 ^ 1022)%Z) by reflexivity.
  assert (Q : (0 < 2 ^ 1022)%Z) by reflexivity.
  destruct t as [a | t].
  - assert (Ha : a = 0%Z \/ a = 1%Z).
    { apply is_binary_cases in H.
      destruct H as [H | [H | [H | [H | H]]]]; try discriminate;
        injection H; auto. }
    rewrite abduct_Int_Int.
    destruct (int_truediv_unit (a + y - 1) (2 * a - 1)) as [q Hq]; [lia | lia |].
    rewrite Hq. eexists; reflexivity.
  - rewrite abduct_Float_Int.
    destruct (float_of_int_returns y) as [g Hg]; [lia |].
    rewrite Hg. cbn [bind]. now apply abduct_binary_Float.
Qed.

(** C10, as the code has it: for a binary treatment (an int or a float
    equal to 0 or 1) the denominator [2*t - 1] is [1] or [-1]; [abduct] then returns a value for
    every float outcome and for every int outcome of magnitude below
    [2^1022], and for no outcome at all does it raise [ZeroDivisionError]. *)
Theorem abduct_total_on_binary (t : num) :
  is_binary t = true ->
  (exists d, denominator t = Ok d /\ eq d (Int 1) || eq d (Int (-1)) = true) /\
  (forall y : float, returns (abduct t (Float y))) /\
  (forall y : Z, (Z.abs y < 2 ^ 1022)%Z -> returns (abduct t (Int y))) /\
  (forall y : num, abduct t y <> Raise ZeroDivisionError).
Proof.
  intros H. split; [now apply denominator_binary |].
  split; [intros y; now apply abduct_binary_Float |].
  split; [intros y; now apply abduct_binary_in_range |].
  intros y Hy. apply abduct_zero_division in Hy. subst t.
  vm_compute in H. discriminate.
Qed.

Lemma abduct_total_on_binary_witness :
  is_binary (Int 1) = true /\
  returns (abduct (Int 1) (Float 0.25)) /\
  returns (abduct (Int 1) (Int 7)) /\
  abduct (Int 1) (Int 7) <> Raise ZeroDivisionError.
Proof.
  split; [reflexivity |].
  destruct (abduct_total_on_binary (Int 1) eq_refl) as (_ & HF & HI & HZ).
  split; [apply HF |]. split; [apply HI; reflexivity | apply HZ].
Defined.

(** C10, as stated, fails on int outcomes too large for a float: with the
    binary treatment [1] (or the float [0.0]) and [y = 2**1024], [abduct]
    raises [OverflowError], so it is not total on every outcome. *)
Lemma abduct_binary_overflow :
  (is_binary (Int 1) = true /\
   abduct (Int 1) (Int (2 ^ 1024)) = Raise OverflowError /\
   is_binary (Float 0) = true /\
   abduct (Float 0) (Int (2 ^ 1024)) = Raise OverflowError) /\
  ~ (forall t y : num, is_binary t = true -> returns (abduct t y)).
Proof.
  split; [repeat split; vm_compute; reflexivity |].
  intros H. destruct (H (Int 1) (Int (2 ^ 1024)) eq_refl) as [u Hu].
  vm_compute in Hu. discriminate.
Qed.

(** *** Round trip *)

(** Over the reals, prediction under the observed treatment undoes
    abduction whenever the denominator is not zero. *)
Lemma exact_roundtrip (t y : R) :
  (t <> 1 / 2)%R -> Exact.predict (Exact.abduct t y) t = y.
Proof.
  intros Ht. unfold Exact.predict, Exact.modify, Exact.abduct.
  field. lra.
Qed.


Lemma roundtrip_binary_py (t y : num) :
  is_binary t = true -> is_binary y = true ->
  exists r, roundtrip t y = Ok r /\ eq r y = true.
Proof.
  intros Ht Hy. binary_cases Ht; binary_cases Hy;
    eexists; (split; [vm_compute; reflexivity | vm_compute; reflexivity]).
Qed.

(** C2, as the code has it: for a binary treatment and a binary outcome
    (each an int or a float equal to 0 or 1), [predict(abduct(t, y), t) == y]
    holds exactly; for any other real outcome the identity holds in exact
    real arithmetic. *)
Theorem roundtrip_binary :
  (forall t y : num,
      is_binary t = true -> is_binary y = true ->
      exists r, roundtrip t y = Ok r /\ eq r y = true) /\
  (forall t y : R,
      t = 0%R \/ t = 1%R -> Exact.predict (Exact.abduct t y) t = y).
Proof.
  split.
  - exact roundtrip_binary_py.
  - intros t y [-> | ->]; apply exact_roundtrip; lra.
Qed.

Lemma roundtrip_binary_witness :
  (exists r, roundtrip (Int 0) (Float 1) = Ok r /\ eq r (Float 1) = true) /\
  Exact.predict (Exact.abduct 1 (1 / 3)) 1 = (1 / 3)%R.
Proof.
  split.
  - apply (proj1 roundtrip_binary); reflexivity.
  - apply (proj2 roundtrip_binary). right. reflexivity.
Defined.

(** C2, as stated, fails on binary64 floats: [0.1] is an outcome of the
    equation under [t = 1] (it is [predict(0.1, 1)]), yet abduction followed
    by prediction under [t = 1] gives [0.10000000000000009]. So the round
    trip does not hold for every outcome consistent with a binary
    treatment. *)
Lemma roundtrip_tenth_inexact :
  (is_binary (Int 1) = true /\
   predict (Float 0.1) (Int 1) = Ok (Float 0.1) /\
   abduct (Int 1) (Float 0.1) = Ok (Float 0.10000000000000009) /\
   roundtrip (Int 1) (Float 0.1) = Ok (Float 0.10000000000000009) /\
   eq (Float 0.10000000000000009) (Float 0.1) = false) /\
  ~ (forall t y : num,
        is_binary t = true ->
        (exists u, predict u t = Ok y) ->
        exists r, roundtrip t y = Ok r /\ eq r y = true).
Proof.
  split; [repeat split; vm_compute; reflexivity |].
  intros H.
  destruct (H (Int 1) (Float 0.1) eq_refl) as (r & Hr & He).
  - exists (Float 0.1). vm_compute. reflexivity.
  - vm_compute in Hr. injection Hr as <-. vm_compute in He. discriminate.
Qed.

(** *** Abduction solves the structural equation *)







(** *** Function objects are independent *)

Lemma lookup_fresh (h : Closures.heap) (t : num) (rest : list num) :
  nth_error (h ++ t :: rest) (length h) = Some t.
Proof.
  rewrite nth_error_app2 by lia. now rewrite Nat.sub_diag.
Qed.

Lemma call_fresh (h : Closures.heap) (t u : num) (rest : list num) :
  Closures.call {| Closures.cell := length h |} u (h ++ t :: rest) =
  (equation t u, h ++ t :: rest).
Proof. unfold Closures.call. simpl. now rewrite lookup_fresh. Qed.

Lemma predict_closure (h : Closures.heap) (u t : num) :
  fst (Closures.predict u t h) = predict u t.
Proof.
  unfold Closures.predict, Closures.bindM, Closures.modify.
  change (h ++ [t]) with (h ++ t :: []). now rewrite call_fresh.
Qed.


End Engine.

(** ** Properties of the sampler and of the interventions *)

Module Sampler.
Import Numpy Random.
Local Open Scope float_scope.

Lemma draws_length {S : Type} (next : S -> float * S) (n : nat) (g : S) :
  length (fst (draws next n g)) = n.
Proof.
  revert g. induction n as [| n IH]; intros g; simpl; [reflexivity |].
  destruct (next g) as [x g1]. specialize (IH g1).
  destruct (draws next n g1) as [xs g2]. simpl in *. now rewrite IH.
Qed.

(** The draws one by one: the state after [n] draws is [n] steps of the
    generator away, and the [i]-th draw is the one made in the state
    reached after [i] steps. *)
Lemma draws_state {S : Type} (next : S -> float * S) (n : nat) (g : S) :
  snd (draws next n g) = Nat.iter n (fun s => snd (next s)) g.
Proof.
  revert g. induction n as [| n IH]; intros g; [reflexivity |].
  rewrite Nat.iter_succ_r. cbn [draws].
  destruct (next g) as [x g1] eqn:E. specialize (IH g1).
  destruct (draws next n g1) as [xs g2]. cbn [snd] in *. exact IH.
Qed.

Lemma draws_nth {S : Type} (next : S -> float * S) (n i : nat) (g : S)
      (d : float) :
  (i < n)%nat ->
  nth i (fst (draws next n g)) d =
  fst (next (Nat.iter i (fun s => snd (next s)) g)).
Proof.
  revert g i. induction n as [| n IH]; intros g i Hi; [lia |].
  cbn [draws]. destruct (next g) as [x g1] eqn:E.
  specialize (IH g1). destruct (draws next n g1) as [xs g2].
  cbn [fst] in *. destruct i as [| i].
  - cbn. now rewrite E.
  - cbn [nth]. rewrite IH by lia. rewrite Nat.iter_succ_r, E. reflexivity.
Qed.

Lemma pearsonr_returns (x y : list float) :
  length x = length y -> (2 <= length x)%nat -> Stats.pearsonr x y = Ok tt.
Proof.
  intros H L. unfold Stats.pearsonr. rewrite H, Nat.eqb_refl. cbn [negb].
  rewrite <- H. destruct (Nat.ltb_spec (length x) 2); [lia | reflexivity].
Qed.

Lemma pearsonr_raises (x y : list float) :
  length x <> length y \/ (length x < 2)%nat ->
  Stats.pearsonr x y = Raise ValueError.
Proof.
  intros H. unfold Stats.pearsonr.
  destruct (Nat.eqb_spec (length x) (length y)) as [E | E]; cbn [negb];
    [| reflexivity].
  destruct (Nat.ltb_spec (length x) 2); [reflexivity | lia].
Qed.

(** A list of three elements, from its elements. *)
Lemma list_of_three {A : Type} (l : list A) (d : A) :
  length l = 3%nat -> l = [nth 0 l d; nth 1 l d; nth 2 l d].
Proof.
  destruct l as [| x0 [| x1 [| x2 [| x3 l]]]]; try discriminate.
  reflexivity.
Qed.

Lemma sized_nonneg {S : Type} (next : S -> float * S) (size : Z) (g : S) :
  (0 <= size)%Z ->
  sized next size g =
  (Ok (fst (draws next (Z.to_nat size) g)),
   snd (draws next (Z.to_nat size) g)).
Proof.
  intros H. unfold sized.
  destruct (Z.ltb_spec size 0) as [? | _]; [lia |].
  now destruct (draws next (Z.to_nat size) g).
Qed.

Lemma sized_negative {S : Type} (next : S -> float * S) (size : Z) (g : S) :
  (size < 0)%Z -> sized next size g = (Raise ValueError, g).
Proof.
  intros H. unfold sized.
  destruct (Z.ltb_spec size 0) as [_ | ?]; [reflexivity | lia].
Qed.

Lemma broadcast2_same {A B C : Type} (f : A -> B -> C)
      (xs : list A) (ys : list B) :
  length xs = length ys ->
  broadcast2 f xs ys = Ok (map (fun p => f (fst p) (snd p)) (combine xs ys)).
Proof.
  intros H. unfold broadcast2. now rewrite H, Nat.eqb_refl.
Qed.

Lemma nth_map_in {A B : Type} (f : A -> B) (l : list A) (i : nat)
      (d : A) (d' : B) :
  (i < length l)%nat -> nth i (map f l) d' = f (nth i l d).
Proof.
  intros H. rewrite (nth_indep _ d' (f d)) by now rewrite length_map.
  apply map_nth.
Qed.

Lemma nth_zip {A B C : Type} (f : A * B -> C) (xs : list A) (ys : list B)
      (i : nat) (dx : A) (dy : B) (d : C) :
  length xs = length ys -> (i < length xs)%nat ->
  nth i (map f (combine xs ys)) d = f (nth i xs dx, nth i ys dy).
Proof.
  intros Hl Hi.
  rewrite (nth_map_in _ _ _ (dx, dy)).
  - now rewrite combine_nth.
  - rewrite length_combine. lia.
Qed.

Lemma zip_length {A B C : Type} (f : A * B -> C) (xs : list A) (ys : list B) :
  length xs = length ys -> length (map f (combine xs ys)) = length xs.
Proof. intros H. rewrite length_map, length_combine. lia. Qed.

(** *** The binary scenario *)

Lemma equations_elementwise (u0 u1 : list float) :
  length u0 = length u1 ->
  exists A B,
    BookSCM.equations u0 u1 = Ok (A, B) /\
    length A = length u0 /\ length B = length u0 /\
    forall i, (i < length u0)%nat ->
      nth i A false = (0.61 <? nth i u0 0) /\
      nth i B false =
      (0.2 <? (if nth i A false then 1 else 0) + 0.5 * nth i u1 0).
Proof.
  intros Hl. unfold BookSCM.equations, add_bool.
  assert (Hg : length (greater u0 0.61) = length (scale 0.5 u1))
    by (unfold greater, scale; now rewrite !length_map).
  assert (Ha : length (greater u0 0.61) = length u0)
    by (unfold greater; now rewrite length_map).
  rewrite (broadcast2_same _ _ _ Hg). cbn [bind].
  eexists. eexists. split; [reflexivity |].
  split; [exact Ha |].
  split.
  { unfold greater at 1. rewrite length_map, zip_length; congruence. }
  intros i Hi.
  assert (HA : nth i (greater u0 0.61) false = (0.61 <? nth i u0 0))
    by (unfold greater; now apply nth_map_in).
  split; [exact HA |].
  unfold greater at 1.
  rewrite (nth_map_in _ _ _ 0) by (rewrite zip_length; lia).
  rewrite (nth_zip _ _ _ _ false 0) by lia.
  cbn [fst snd]. rewrite HA.
  unfold scale. rewrite (nth_map_in _ _ _ 0) by lia.
  reflexivity.
Qed.

Lemma sample_draws (G : generator) (random_seed : option Z) (N : Z)
      (g : rng G) :
  (0 <= N)%Z ->
  exists u0 u1 g1 g2,
    BookSCM.rvs G BookSCM.uniform N g = (Ok u0, g1) /\
    BookSCM.rvs G BookSCM.norm N g1 = (Ok u1, g2) /\
    length u0 = Z.to_nat N /\ length u1 = Z.to_nat N /\
    BookSCM.sample G (BookSCM.init random_seed) N g =
    (BookSCM.equations u0 u1, g2).
Proof.
  intros HN.
  pose (d0 := draws (random_sample G) (Z.to_nat N) g).
  pose (d1 := draws (standard_normal G) (Z.to_nat N) (snd d0)).
  assert (R0 : BookSCM.rvs G BookSCM.uniform N g = (Ok (fst d0), snd d0))
    by (unfold BookSCM.rvs; now rewrite sized_nonneg).
  assert (R1 : BookSCM.rvs G BookSCM.norm N (snd d0) = (Ok (fst d1), snd d1))
    by (unfold BookSCM.rvs; now rewrite sized_nonneg).
  exists (fst d0), (fst d1), (snd d0), (snd d1).
  split; [exact R0 |]. split; [exact R1 |].
  split; [apply draws_length |]. split; [apply draws_length |].
  unfold BookSCM.sample, BookSCM.init. cbn [BookSCM.u_0 BookSCM.u_1].
  now rewrite R0, R1.
Qed.

(** C3: for a positive sample size [N], on every pair of noise vectors
    [u0], [u1] of length [N] the structural equations give two boolean
    arrays [A], [B] of length [N] with [A[i] = (u0[i] > 0.61)] and
    [B[i] = (A_numeric[i] + 0.5 * u1[i] > 0.2)], where [A_numeric[i]] is
    [1.0] if [A[i]] is true and [0.0] otherwise; and [sample], with any
    generator in any state [g], takes for [u0] the [N] uniform draws made
    from [g] on and for [u1] the [N] normal draws made after them, leaves
    the generator after those [2N] draws, and returns those [A] and [B]. *)
Theorem sample_elementwise (N : Z) :
  (0 < N)%Z ->
  (forall u0 u1 : list float,
      length u0 = Z.to_nat N -> length u1 = Z.to_nat N ->
      exists A B,
        BookSCM.equations u0 u1 = Ok (A, B) /\
        length A = Z.to_nat N /\ length B = Z.to_nat N /\
        forall i, (i < Z.to_nat N)%nat ->
          nth i A false = (0.61 <? nth i u0 0) /\
          nth i B false =
          (0.2 <? (if nth i A false then 1 else 0) + 0.5 * nth i u1 0)) /\
  (forall (G : generator) (random_seed : option Z) (g : rng G),
      let step0 := fun s => snd (random_sample G s) in
      let step1 := fun s => snd (standard_normal G s) in
      let g1 := Nat.iter (Z.to_nat N) step0 g in
      let g2 := Nat.iter (Z.to_nat N) step1 g1 in
      exists u0 u1 A B,
        BookSCM.rvs G BookSCM.uniform N g = (Ok u0, g1) /\
        BookSCM.rvs G BookSCM.norm N g1 = (Ok u1, g2) /\
        length u0 = Z.to_nat N /\ length u1 = Z.to_nat N /\
        (forall i, (i < Z.to_nat N)%nat ->
           nth i u0 0 = fst (random_sample G (Nat.iter i step0 g)) /\
           nth i u1 0 = fst (standard_normal G (Nat.iter i step1 g1))) /\
        BookSCM.sample G (BookSCM.init random_seed) N g = (Ok (A, B), g2) /\
        length A = Z.to_nat N /\ length B = Z.to_nat N /\
        forall i, (i < Z.to_nat N)%nat ->
          nth i A false = (0.61 <? nth i u0 0) /\
          nth i B false =
          (0.2 <? (if nth i A false then 1 else 0) + 0.5 * nth i u1 0)).
Proof.
  intros HN.
  assert (HE : forall u0 u1 : list float,
             length u0 = Z.to_nat N -> length u1 = Z.to_nat N ->
             exists A B,
               BookSCM.equations u0 u1 = Ok (A, B) /\
               length A = Z.to_nat N /\ length B = Z.to_nat N /\
               forall i, (i < Z.to_nat N)%nat ->
                 nth i A false = (0.61 <? nth i u0 0) /\
                 nth i B false =
                 (0.2 <? (if nth i A false then 1 else 0)
                         + 0.5 * nth i u1 0)).
  { intros u0 u1 H0 H1.
    destruct (equations_elementwise u0 u1) as (A & B & E & LA & LB & Hnth);
      [congruence |].
    exists A, B. rewrite <- H0. auto. }
  split; [exact HE |].
  intros G random_seed g step0 step1 g1 g2.
  pose (d0 := draws (random_sample G) (Z.to_nat N) g).
  assert (S0 : snd d0 = g1) by apply draws_state.
  pose (d1 := draws (standard_normal G) (Z.to_nat N) g1).
  assert (S1 : snd d1 = g2) by apply draws_state.
  assert (R0 : BookSCM.rvs G BookSCM.uniform N g = (Ok (fst d0), g1)).
  { unfold BookSCM.rvs. rewrite sized_nonneg by lia.
    apply f_equal2; [reflexivity | exact S0]. }
  assert (R1 : BookSCM.rvs G BookSCM.norm N g1 = (Ok (fst d1), g2)).
  { unfold BookSCM.rvs. rewrite sized_nonneg by lia.
    apply f_equal2; [reflexivity | exact S1]. }
  assert (L0 : length (fst d0) = Z.to_nat N) by apply draws_length.
  assert (L1 : length (fst d1) = Z.to_nat N) by apply draws_length.
  destruct (HE (fst d0) (fst d1) L0 L1) as (A & B & E & LA & LB & Hnth).
  exists (fst d0), (fst d1), A, B.
  split; [exact R0 |]. split; [exact R1 |].
  split; [exact L0 |]. split; [exact L1 |].
  split.
  { intros i Hi. split; apply draws_nth; exact Hi. }
  split.
  { unfold BookSCM.sample, BookSCM.init. cbn [BookSCM.u_0 BookSCM.u_1].
    rewrite R0, R1. now rewrite E. }
  auto.
Qed.

Lemma sample_elementwise_witness :
  BookSCM.equations [0.7; 0.5; 0.62] [0.1; -2; 3] =
  Ok ([true; false; true], [true; false; true]) /\
  BookSCM.sample Lcg.G (BookSCM.init (Some 42%Z)) 3 2024%Z =
  (Ok ([false; false; false], [false; true; true]), 1796128355%Z).
Proof.
  assert (H3 : (0 < 3)%Z) by lia.
  destruct (sample_elementwise 3 H3) as [HE HS].
  change (Z.to_nat 3) with 3%nat in HE, HS. split.
  - destruct (HE [0.7; 0.5; 0.62] [0.1; -2; 3] eq_refl eq_refl)
      as (A & B & E & LA & LB & Hnth).
    destruct (Hnth 0%nat ltac:(lia)) as [A0 B0].
    destruct (Hnth 1%nat ltac:(lia)) as [A1 B1].
    destruct (Hnth 2%nat ltac:(lia)) as [A2 B2].
    rewrite E, (list_of_three A false LA), (list_of_three B false LB).
    rewrite B0, B1, B2, A0, A1, A2. reflexivity.
  - destruct (HS Lcg.G (Some 42%Z) 2024%Z)
      as (u0 & u1 & A & B & _ & _ & _ & _ & Hd & E & LA & LB & Hnth).
    destruct (Hnth 0%nat ltac:(lia)) as [A0 B0].
    destruct (Hnth 1%nat ltac:(lia)) as [A1 B1].
    destruct (Hnth 2%nat ltac:(lia)) as [A2 B2].
    destruct (Hd 0%nat ltac:(lia)) as [U0 V0].
    destruct (Hd 1%nat ltac:(lia)) as [U1 V1].
    destruct (Hd 2%nat ltac:(lia)) as [U2 V2].
    rewrite E, (list_of_three A false LA), (list_of_three B false LB).
    rewrite B0, B1, B2, A0, A1, A2, U0, U1, U2, V0, V1, V2.
    vm_compute. reflexivity.
Defined.

(** *** The continuous scenario *)

Import Continuous.

Lemma randn_nonneg (G : generator) (n : Z) (g : rng G) :
  (0 <= n)%Z ->
  randn G n g =
  (Ok (fst (draws (standard_normal G) (Z.to_nat n) g)),
   snd (draws (standard_normal G) (Z.to_nat n) g)).
Proof. apply sized_nonneg. Qed.

Lemma affine_elementwise (c : float) (n : nat) (u1 : list float) :
  length u1 = n ->
  add (scale 5 (repeat c n)) u1 = Ok (map (fun x => 5 * c + x) u1).
Proof.
  intros <-. unfold add, scale.
  rewrite broadcast2_same by now rewrite length_map, repeat_length.
  f_equal. induction u1 as [| x u1 IH]; simpl; [reflexivity |].
  now rewrite IH.
Qed.

(** The first cell of the scenario, from any notebook state: 100 normal
    draws for [u_0], the next 100 for [u_1], after seeding with 42. *)
Lemma cell_build_spec (G : generator) (nb0 : notebook G) :
  let d0 := draws (standard_normal G) 100 (seed G 42) in
  let d1 := draws (standard_normal G) 100 (snd d0) in
  exists nb B,
    cell_build G nb0 = Ok nb /\
    SAMPLE_SIZE nb = Some 100%Z /\
    u_0 nb = Some (fst d0) /\ u_1 nb = Some (fst d1) /\
    a nb = Some (fst d0) /\ b nb = Some B /\ gen nb = snd d1 /\
    length (fst d0) = 100%nat /\ length (fst d1) = 100%nat /\
    length B = 100%nat /\
    forall i, (i < 100)%nat ->
      nth i B 0 = 5 * nth i (fst d0) 0 + nth i (fst d1) 0.
Proof.
  intros d0 d1. unfold cell_build.
  rewrite !randn_nonneg by lia.
  change (Z.to_nat 100) with 100%nat. fold d0. fold d1.
  assert (L0 : length (fst d0) = 100%nat) by apply draws_length.
  assert (L1 : length (fst d1) = 100%nat) by apply draws_length.
  unfold add. rewrite broadcast2_same
    by (unfold scale; rewrite length_map; congruence).
  cbn [bind]. rewrite pearsonr_returns
    by (rewrite ?zip_length; unfold scale; rewrite ?length_map; lia).
  cbn [bind]. eexists. eexists.
  split; [reflexivity |]. cbn [SAMPLE_SIZE u_0 u_1 a b gen].
  repeat (split; [reflexivity || assumption |]).
  split.
  { rewrite zip_length; unfold scale; rewrite length_map; congruence. }
  intros i Hi.
  rewrite (nth_zip _ _ _ _ 0 0)
    by (unfold scale; rewrite length_map; congruence || lia).
  cbn [fst snd]. unfold scale.
  now rewrite (nth_map_in _ _ _ 0) by lia.
Qed.

(** The two intervention cells, as the state they leave. *)
Lemma intervene_on_A_run (G : generator) (c : float) (nb : notebook G)
      (n : Z) (u1 : list float) :
  SAMPLE_SIZE nb = Some n ->
  u_1 nb = Some u1 ->
  length u1 = Z.to_nat n ->
  intervene_on_A G c nb =
  Ok (Build_notebook G (SAMPLE_SIZE nb) (u_0 nb) (u_1 nb)
        (Some (repeat c (Z.to_nat n)))
        (Some (map (fun x => 5 * c + x) u1)) (gen nb)).
Proof.
  intros HN HU HL. unfold intervene_on_A. rewrite HN, HU. cbn [lookup bind].
  unfold full. rewrite (affine_elementwise c _ u1 HL). cbn [bind].
  now rewrite <- HN, <- HU.
Qed.

Lemma cell_intervene_B_run (G : generator) (nb : notebook G) (n : Z)
      (u0 : list float) :
  SAMPLE_SIZE nb = Some n ->
  (2 <= n)%Z ->
  u_0 nb = Some u0 ->
  length u0 = Z.to_nat n ->
  cell_intervene_B G nb =
  Ok (Build_notebook G (SAMPLE_SIZE nb) (u_0 nb) (u_1 nb) (Some u0)
        (Some (fst (draws (standard_normal G) (Z.to_nat n) (gen nb))))
        (snd (draws (standard_normal G) (Z.to_nat n) (gen nb)))).
Proof.
  intros HN Hn HU HL. unfold cell_intervene_B. rewrite HU, HN.
  cbn [lookup bind]. rewrite randn_nonneg by lia.
  rewrite pearsonr_returns by (rewrite ?draws_length; lia).
  cbn [bind]. now rewrite <- HN, <- HU.
Qed.

(** Below two samples, or with a [u_0] of another length, the cell that
    intervenes on [B] stops at the correlation with a [ValueError]. *)
Lemma cell_intervene_B_raises (G : generator) (nb : notebook G) (n : Z)
      (u0 : list float) :
  SAMPLE_SIZE nb = Some n ->
  u_0 nb = Some u0 ->
  (n < 2)%Z \/ length u0 <> Z.to_nat n ->
  cell_intervene_B G nb = Raise ValueError.
Proof.
  intros HN HU H. unfold cell_intervene_B. rewrite HU, HN.
  cbn [lookup bind]. unfold randn.
  destruct (Z.ltb_spec n 0) as [Hneg | Hpos].
  - now rewrite sized_negative.
  - rewrite sized_nonneg by assumption.
    rewrite pearsonr_raises; [reflexivity |].
    rewrite draws_length. lia.
Qed.

(** C4: in a notebook where [u_1] holds [SAMPLE_SIZE] values, setting [A]
    to the constant [c] leaves [u_1], [u_0] and the generator as they
    were, draws nothing, and makes [B[i] = 5*c + u_1[i]] for every index. *)
Theorem intervene_on_A_affine (G : generator) (c : float) (nb : notebook G)
        (n : Z) (u1 : list float) :
  SAMPLE_SIZE nb = Some n ->
  u_1 nb = Some u1 ->
  length u1 = Z.to_nat n ->
  exists nb' B,
    intervene_on_A G c nb = Ok nb' /\
    u_1 nb' = Some u1 /\
    u_0 nb' = u_0 nb /\
    gen nb' = gen nb /\
    SAMPLE_SIZE nb' = Some n /\
    a nb' = Some (repeat c (Z.to_nat n)) /\
    b nb' = Some B /\
    B = map (fun x => 5 * c + x) u1 /\
    length B = Z.to_nat n /\
    forall i, (i < Z.to_nat n)%nat -> nth i B 0 = 5 * c + nth i u1 0.
Proof.
  intros HN HU HL. unfold intervene_on_A. rewrite HN, HU. cbn [lookup bind].
  unfold full. rewrite (affine_elementwise c _ u1 HL). cbn [bind].
  eexists. eexists. split; [reflexivity |].
  cbn [SAMPLE_SIZE u_0 u_1 a b gen].
  repeat (split; [reflexivity || assumption |]).
  split; [now rewrite length_map |].
  intros i Hi. apply (nth_map_in (fun x => 5 * c + x)). lia.
Qed.

Lemma intervene_on_A_affine_witness :
  exists nb',
    intervene_on_A Lcg.G 1.5 Lcg.small_notebook = Ok nb' /\
    b nb' = Some [8; 7.375; 11.5].
Proof.
  destruct (intervene_on_A_affine Lcg.G 1.5 Lcg.small_notebook
              3%Z [0.5; -0.125; 4] eq_refl eq_refl eq_refl)
    as (nb' & B & E & _ & _ & _ & _ & _ & HB & HM & _).
  exists nb'. split; [exact E |]. rewrite HB, HM. reflexivity.
Defined.

(** The cell of the notebook, run after the first cell:
    [B[i] = 5 * 1.5 + u_1[i]] on the [u_1] drawn by the first cell. *)
Lemma notebook_intervene_A (G : generator) (nb0 : notebook G) :
  exists nb nb' u1 B,
    cell_build G nb0 = Ok nb /\ u_1 nb = Some u1 /\
    cell_intervene_A G nb = Ok nb' /\ u_1 nb' = Some u1 /\
    gen nb' = gen nb /\ b nb' = Some B /\
    forall i, (i < 100)%nat -> nth i B 0 = 7.5 + nth i u1 0.
Proof.
  destruct (cell_build_spec G nb0)
    as (nb & B0 & E & HS & _ & HU & _ & _ & _ & _ & L1 & _).
  pose proof (intervene_on_A_run G 1.5 nb 100 _ HS HU L1) as E'.
  exists nb. eexists. eexists. eexists.
  split; [exact E |]. split; [exact HU |].
  split; [exact E' |]. cbn [u_1 gen b].
  split; [exact HU |]. split; [reflexivity |]. split; [reflexivity |].
  intros i Hi. apply (nth_map_in (fun x => 5 * 1.5 + x)). lia.
Qed.

(** C5: in a notebook where [SAMPLE_SIZE] is [n >= 2] and [u_0] holds [n]
    values, as after the first cell, the cell that intervenes on [B] binds
    [B] to [n] values, the [i]-th being the standard normal draw the
    generator makes [i] draws after the state the cell found it in; it
    leaves the generator [n] draws further, without reseeding; [u_0] and
    [u_1] stay as they were and [A] is [u_0]. No structural equation is
    evaluated: whatever [u_0], [u_1], [A] and [B] held before, the new [B]
    is the same vector. Below two samples, or with a [u_0] of another
    length, the cell does not complete: it raises [ValueError]. *)
Theorem intervene_on_B_fresh (G : generator) (nb : notebook G) (n : Z)
        (u0 : list float) :
  SAMPLE_SIZE nb = Some n ->
  u_0 nb = Some u0 ->
  let step := fun s => snd (standard_normal G s) in
  ((2 <= n)%Z -> length u0 = Z.to_nat n ->
   exists nb' B,
     cell_intervene_B G nb = Ok nb' /\
     b nb' = Some B /\ length B = Z.to_nat n /\
     (forall i, (i < Z.to_nat n)%nat ->
        nth i B 0 = fst (standard_normal G (Nat.iter i step (gen nb)))) /\
     gen nb' = Nat.iter (Z.to_nat n) step (gen nb) /\
     a nb' = Some u0 /\ u_0 nb' = Some u0 /\ u_1 nb' = u_1 nb /\
     SAMPLE_SIZE nb' = Some n /\
     forall (u0' : list float) (u1' a' b' : option (list float)),
       length u0' = Z.to_nat n ->
       exists nb'',
         cell_intervene_B G
           (Build_notebook G (Some n) (Some u0') u1' a' b' (gen nb)) =
         Ok nb'' /\
         b nb'' = Some B) /\
  ((n < 2)%Z \/ length u0 <> Z.to_nat n ->
   cell_intervene_B G nb = Raise ValueError).
Proof.
  intros HN HU step.
  split; [| now apply cell_intervene_B_raises].
  intros Hn HL.
  rewrite (cell_intervene_B_run G nb n u0 HN Hn HU HL).
  eexists. eexists. split; [reflexivity |]. cbn [SAMPLE_SIZE u_0 u_1 a b gen].
  split; [reflexivity |].
  split; [apply draws_length |].
  split; [intros i Hi; now apply draws_nth |].
  split; [apply draws_state |].
  repeat (split; [first [reflexivity | assumption] |]).
  intros u0' u1' a' b' HL'.
  rewrite (cell_intervene_B_run G
             (Build_notebook G (Some n) (Some u0') u1' a' b' (gen nb))
             n u0' eq_refl Hn eq_refl HL').
  eexists. split; reflexivity.
Qed.

Lemma intervene_on_B_fresh_witness :
  exists nb',
    cell_intervene_B Lcg.G Lcg.small_notebook = Ok nb' /\
    b nb' =
    Some [-1.779162903316319; 1.5276628909632564; 0.73543613683432341] /\
    gen nb' = 66458356%Z /\
    u_1 nb' = Some [0.5; -0.125; 4].
Proof.
  destruct (proj1 (intervene_on_B_fresh Lcg.G Lcg.small_notebook 3%Z
                     [0.25; -1; 2] eq_refl eq_refl) ltac:(lia) eq_refl)
    as (nb' & B & E & HB & LB & Hnth & HG & _ & _ & HU & _).
  change (Z.to_nat 3) with 3%nat in LB, Hnth, HG.
  pose proof (Hnth 0%nat ltac:(lia)) as B0.
  pose proof (Hnth 1%nat ltac:(lia)) as B1.
  pose proof (Hnth 2%nat ltac:(lia)) as B2.
  exists nb'. split; [exact E |].
  split.
  { rewrite HB, (list_of_three B 0 LB), B0, B1, B2. vm_compute. reflexivity. }
  split; [rewrite HG; vm_compute; reflexivity | exact HU].
Defined.

(** The three cells in the order of the notebook: the new [B] is the third
    block of 100 draws after the seeding of the first cell. *)
Lemma notebook_intervene_B (G : generator) (nb0 : notebook G) :
  let d0 := draws (standard_normal G) 100 (seed G 42) in
  let d1 := draws (standard_normal G) 100 (snd d0) in
  let d2 := draws (standard_normal G) 100 (snd d1) in
  exists nb1 nb2 nb3,
    cell_build G nb0 = Ok nb1 /\
    cell_intervene_A G nb1 = Ok nb2 /\
    cell_intervene_B G nb2 = Ok nb3 /\
    a nb3 = Some (fst d0) /\ u_1 nb3 = Some (fst d1) /\
    b nb3 = Some (fst d2) /\ gen nb3 = snd d2.
Proof.
  intros d0 d1 d2.
  destruct (cell_build_spec G nb0)
    as (nb1 & B0 & E1 & HS & HU0 & HU1 & _ & _ & HG & L0 & L1 & _).
  pose proof (intervene_on_A_run G 1.5 nb1 100 _ HS HU1 L1) as E2.
  match type of E2 with _ = Ok ?x => set (nb2 := x) in * end.
  assert (E3 := cell_intervene_B_run G nb2 100 (fst d0) HS ltac:(lia) HU0 L0).
  exists nb1, nb2. eexists.
  split; [exact E1 |]. split; [exact E2 |]. split; [exact E3 |].
  cbn [a u_1 b gen nb2]. rewrite HU1, HG. auto.
Qed.

(** *** Seeding *)

(** [sample] never looks at [random_seed]. *)
Lemma sample_ignores_seed (G : generator) (seed1 seed2 : option Z) (N : Z)
      (g : rng G) :
  BookSCM.sample G (BookSCM.init seed1) N g =
  BookSCM.sample G (BookSCM.init seed2) N g.
Proof. reflexivity. Qed.

(** The first cell of the continuous scenario seeds the generator itself:
    its outcome is the same from every notebook state. *)
Lemma cell_build_reproducible (G : generator) (nb nb' : notebook G) :
  cell_build G nb = cell_build G nb'.
Proof. reflexivity. Qed.

(** C6, where the code departs from it: [BookSCM] stores [random_seed]
    and never seeds with it, so a sample is a function of the state the
    generator happens to be in. With the small generator, two instances
    made with [random_seed=42] and sampled one after the other give
    different samples (of 5, and of 100 as in the notebook), and so does one
    instance from two generator states.
    The continuous scenario, which seeds in its first cell, is
    reproducible. *)
Theorem same_seed_different_samples :
  (forall (G : generator) (seed1 seed2 : option Z) (N : Z) (g : rng G),
      BookSCM.sample G (BookSCM.init seed1) N g =
      BookSCM.sample G (BookSCM.init seed2) N g) /\
  BookSCM.two_instances Lcg.G (Some 42%Z) (Some 42%Z) 5 2024%Z =
  (Ok ([false; false; false; false; false], [false; true; true; false; false]),
   Ok ([false; false; false; false; true], [true; false; true; false; true])) /\
  fst (BookSCM.two_instances Lcg.G (Some 42%Z) (Some 42%Z) 100 2024%Z) <>
  snd (BookSCM.two_instances Lcg.G (Some 42%Z) (Some 42%Z) 100 2024%Z) /\
  fst (BookSCM.sample Lcg.G (BookSCM.init (Some 42%Z)) 100 2024%Z) <>
  fst (BookSCM.sample Lcg.G (BookSCM.init (Some 42%Z)) 100 1%Z) /\
  (forall (G : generator) (nb nb' : notebook G),
      cell_build G nb = cell_build G nb').
Proof.
  split; [exact sample_ignores_seed |].
  split; [vm_compute; reflexivity |].
  split; [vm_compute; discriminate |].
  split; [vm_compute; discriminate |].
  exact cell_build_reproducible.
Qed.

End Sampler.

(** ** Counterfactual queries

    The three steps chained as the notebook chains them: abduction from an
    observed pair, then prediction under a treatment that may differ from
    the observed one. *)

Module Counterfactual.
Import Py Binary64 PyFacts CounterFactualSCM EngineFacts Engine.

(** X1: for a binary observed treatment [t], a binary observed outcome [y]
    and a binary counterfactual treatment [t'] (ints or floats equal to 0
    or 1), [predict(abduct(t, y), t')] returns a value that is [== y] when
    [t' == t] and [== 1 - y] when it is not: changing the treatment flips
    the outcome. Over the reals the same holds for every outcome [y]. *)
Theorem counterfactual_flip :
  (forall t y t' : num,
      is_binary t = true -> is_binary y = true -> is_binary t' = true ->
      exists u r,
        abduct t y = Ok u /\ predict u t' = Ok r /\
        (eq t' t = true -> eq r y = true) /\
        (eq t' t = false ->
         exists w, sub (Int 1) y = Ok w /\ eq r w = true)) /\
  (forall t y t' : R,
      t = 0%R \/ t = 1%R -> t' = 0%R \/ t' = 1%R ->
      (t' = t -> Exact.predict (Exact.abduct t y) t' = y) /\
      (t' <> t -> Exact.predict (Exact.abduct t y) t' = (1 - y)%R)).
Proof.
  split.
  - intros t y t' Ht Hy Ht'.
    binary_cases Ht; binary_cases Hy; binary_cases Ht';
      eexists; eexists;
      (split; [vm_compute; reflexivity |
       split; [vm_compute; reflexivity |
       split; [intros E; vm_compute in E |- *;
               first [reflexivity | discriminate] |
               intros E; vm_compute in E; try discriminate;
               eexists;
               (split; [vm_compute; reflexivity | vm_compute; reflexivity])]]]).
  - intros t y t' [-> | ->] [-> | ->]; split; intros H;
      try (exfalso; lra);
      unfold Exact.predict, Exact.modify, Exact.abduct; field.
Qed.

Lemma counterfactual_flip_witness :
  (exists u r,
      abduct (Int 1) (Float 1) = Ok u /\ predict u (Int 0) = Ok r /\
      exists w, sub (Int 1) (Float 1) = Ok w /\ eq r w = true) /\
  Exact.predict (Exact.abduct 1 (1 / 3)) 0 = (1 - 1 / 3)%R.
Proof.
  split.
  - destruct (proj1 counterfactual_flip (Int 1) (Float 1) (Int 0)
                eq_refl eq_refl eq_refl) as (u & r & E & P & _ & F).
    exists u, r. split; [exact E |]. split; [exact P |]. apply F. reflexivity.
  - apply (proj2 counterfactual_flip 1%R (1 / 3)%R 0%R); [right | left |];
      (reflexivity || lra).
Defined.

(** X2: on binary values the structural equation is the indicator of
    agreement: [predict(u, t)] is [== 1] when [t == u] and [== 0] when
    [t != u], for ints and floats alike, and over the reals. *)
Theorem equation_is_agreement :
  (forall t u : num,
      is_binary t = true -> is_binary u = true ->
      exists r, predict u t = Ok r /\
                eq r (Int (if eq t u then 1 else 0)) = true) /\
  (forall t u : R,
      t = 0%R \/ t = 1%R -> u = 0%R \/ u = 1%R ->
      (t = u -> Exact.predict u t = 1%R) /\
      (t <> u -> Exact.predict u t = 0%R)).
Proof.
  split.
  - intros t u Ht Hu. binary_cases Ht; binary_cases Hu;
      eexists; (split; [vm_compute; reflexivity | vm_compute; reflexivity]).
  - intros t u [-> | ->] [-> | ->]; split; intros H;
      try (exfalso; lra); unfold Exact.predict, Exact.modify; ring.
Qed.

Lemma equation_is_agreement_witness :
  (exists r, predict (Int 1) (Float 1) = Ok r /\ eq r (Int 1) = true) /\
  Exact.predict 0 1 = 0%R.
Proof.
  split.
  - apply (proj1 equation_is_agreement (Float 1) (Int 1)); reflexivity.
  - apply (proj2 equation_is_agreement 1%R 0%R); [right | left |];
      (reflexivity || lra).
Defined.

(** X3: for a binary treatment, abduction is prediction with the outcome
    in the place of the trait: [abduct(t, y) == predict(y, t)] on binary
    values, and over the reals for every [y], where prediction under a
    fixed treatment is its own inverse. On floats outside the binary values
    the two differ: at [t = 1], [y = 0.1] they are not [==]. *)
Theorem abduct_is_predict :
  (forall t y : num,
      is_binary t = true -> is_binary y = true ->
      exists u r, abduct t y = Ok u /\ predict y t = Ok r /\ eq u r = true) /\
  (forall t y : R,
      t = 0%R \/ t = 1%R ->
      Exact.abduct t y = Exact.predict y t /\
      Exact.predict (Exact.predict y t) t = y) /\
  (exists u r, abduct (Int 1) (Float 0.1) = Ok u /\
               predict (Float 0.1) (Int 1) = Ok r /\ eq u r = false).
Proof.
  split; [| split].
  - intros t y Ht Hy. binary_cases Ht; binary_cases Hy;
      eexists; eexists;
      (split; [vm_compute; reflexivity |
       split; [vm_compute; reflexivity | vm_compute; reflexivity]]).
  - intros t y [-> | ->]; split;
      unfold Exact.predict, Exact.modify, Exact.abduct; field.
  - eexists. eexists.
    split; [vm_compute; reflexivity |].
    split; [vm_compute; reflexivity | vm_compute; reflexivity].
Qed.

Lemma abduct_is_predict_witness :
  (exists u r, abduct (Float 0) (Int 1) = Ok u /\
               predict (Int 1) (Float 0) = Ok r /\ eq u r = true) /\
  Exact.abduct 0 (1 / 3) = Exact.predict (1 / 3) 0.
Proof.
  split.
  - apply (proj1 abduct_is_predict (Float 0) (Int 1)); reflexivity.
  - apply (proj1 (proj2 abduct_is_predict) 0%R (1 / 3)%R). left. reflexivity.
Defined.

Lemma as_float_raise (x : num) (e : exn) :
  as_float x = Raise e -> e = OverflowError.
Proof. destruct x; [apply float_of_int_raise | discriminate]. Qed.

Lemma arith_raise (fz : Z -> Z -> Z) (ff : float -> float -> float)
      (x y : num) (e : exn) :
  arith fz ff x y = Raise e -> e = OverflowError.
Proof.
  unfold arith.
  destruct x as [a | f], y as [b | g]; try discriminate;
    cbn [as_float bind].
  - destruct (float_of_int a) eqn:E; cbn [bind]; [discriminate |].
    intros H. apply float_of_int_raise in E. congruence.
  - destruct (float_of_int b) eqn:E; cbn [bind]; [discriminate |].
    intros H. apply float_of_int_raise in E. congruence.
Qed.

(** X4: [predict] divides nothing: on two ints it returns an int and on
    two floats a float, and whatever the operands the only exception it can
    raise is the [OverflowError] of an int too large for a float, met when
    the two types are mixed. *)
Theorem predict_raises_only_overflow :
  (forall u t : Z, exists r, predict (Int u) (Int t) = Ok (Int r)) /\
  (forall u t : float, exists r, predict (Float u) (Float t) = Ok (Float r)) /\
  (forall (u t : num) (e : exn), predict u t = Raise e -> e = OverflowError) /\
  predict (Float 1) (Int (2 ^ 1024)) = Raise OverflowError /\
  predict (Int (2 ^ 1024)) (Float 1) = Raise OverflowError.
Proof.
  split; [intros u t; eexists; reflexivity |].
  split; [intros u t; eexists; reflexivity |].
  split; [| split; vm_compute; reflexivity].
  intros u t e. unfold predict, modify, equation.
  destruct (mul t u) as [p | e1] eqn:E1; cbn [bind];
    [| intros H; apply arith_raise in E1; congruence].
  destruct (sub t (Int 1)) as [a | e2] eqn:E2; cbn [bind];
    [| intros H; apply arith_raise in E2; congruence].
  destruct (sub u (Int 1)) as [b | e3] eqn:E3; cbn [bind];
    [| intros H; apply arith_raise in E3; congruence].
  destruct (mul a b) as [q | e4] eqn:E4; cbn [bind];
    [| intros H; apply arith_raise in E4; congruence].
  apply arith_raise.
Qed.

Lemma predict_raises_only_overflow_witness :
  predict (Float 1) (Int (2 ^ 1024)) = Raise OverflowError /\
  OverflowError = OverflowError.
Proof.
  assert (E : predict (Float 1) (Int (2 ^ 1024)) = Raise OverflowError)
    by (vm_compute; reflexivity).
  split; [exact E |].
  exact (proj1 (proj2 (proj2 predict_raises_only_overflow)) _ _ _ E).
Defined.

End Counterfactual.

(** ** Abduction under a binary treatment, by type of outcome

    With [t] equal to 1 or 0 the denominator is [1] or [-1]; dividing by
    it rounds nothing, so what [abduct] returns is the numerator, converted
    or negated. *)

Module Conversion.
Import Py Binary64 PyFacts CounterFactualSCM EngineFacts.
Local Open Scope Z_scope.

(** Rounding a canonical mantissa leaves it as it is. *)
Lemma binary_round_aux_fits (s : bool) (m : positive) (e : Z) :
  Z.max (Zpos (digits2_pos m) + e - 53) (-1074) = e ->
  binary_round_aux prec emax s (Zpos m) e loc_Exact =
  if e <=? 971 then S754_finite s m e else S754_infinity s.
Proof.
  intros C. unfold binary_round_aux.
  rewrite shr_fexp_fits by lia.
  cbn [shr_m loc_of_shr_record round_nearest_even].
  rewrite shr_fexp_fits by lia. reflexivity.
Qed.

Lemma binary_normalize_signed (z : Z) :
  z <> 0 ->
  binary_normalize prec emax z 0 false =
  binary_round prec emax (z <? 0) (Z.to_pos (Z.abs z)) 0.
Proof. destruct z; [contradiction | reflexivity | reflexivity]. Qed.

(** Dividing an integer mantissa by one rounds it as a conversion does. *)
Lemma SFdiv_by_one (s sb : bool) (pa : positive) :
  SFdiv prec emax (S754_finite s pa 0) (S754_finite sb 1 0) =
  binary_round prec emax (xorb s sb) pa 0.
Proof.
  unfold SFdiv, SFdiv_core_binary. cbn [Zdigits2 digits2_pos].
  rewrite fexp_eq.
  set (d := Zpos (digits2_pos pa)).
  assert (Hd1 : 1 <= d) by (unfold d; lia).
  replace (d + 0 - (1 + 0) - 53) with (d - 54) by lia.
  change (0 - 0) with 0.
  set (e' := Z.min (Z.max (d - 54) (-1074)) 0).
  set (q := match 0 - e' with
            | 0 => Zpos pa
            | Zpos _ => Z.shiftl (Zpos pa) (0 - e')
            | Zneg _ => 0
            end).
  assert (Hq : q = Zpos pa * 2 ^ (- e')).
  { unfold q. destruct (0 - e') eqn:E; try lia.
    - replace (- e') with 0 by lia. change (2 ^ 0) with 1. lia.
    - rewrite Z.shiftl_mul_pow2 by lia. f_equal. f_equal. lia. }
  rewrite div_eucl_1.
  change (new_location 1 0) with loc_Exact.
  assert (Pq : 0 < q)
    by (rewrite Hq; apply Z.mul_pos_pos; [lia | apply Z.pow_pos_nonneg; lia]).
  destruct q as [| pq | pq]; try lia.
  unfold binary_round. rewrite fexp_eq. fold d.
  replace (d + 0 - 53) with (d - 53) by lia.
  destruct (shl_align_spec pa 0 (Z.max (d - 53) (-1074))) as [Hm Hs].
  destruct (shl_align pa 0 (Z.max (d - 53) (-1074))) as [mz ez].
  cbn [fst snd] in Hm, Hs.
  destruct (Z.le_gt_cases 54 d) as [Hbig | Hsmall].
  - (* more than 53 digits: both round the int itself *)
    assert (E0 : e' = 0) by (unfold e'; lia).
    rewrite E0 in Hq |- *. change (2 ^ (- 0)) with 1 in Hq.
    replace (Z.max 0 (0 - Z.max (d - 53) (-1074))) with 0 in Hm by lia.
    change (2 ^ 0) with 1 in Hm.
    replace ez with 0 by lia.
    replace mz with pq by lia. reflexivity.
  - (* at most 53 digits: the quotient carries one more zero bit *)
    assert (E0 : e' = d - 54) by (unfold e'; lia).
    assert (Ez : ez = d - 53) by lia.
    replace (Z.max 0 (0 - Z.max (d - 53) (-1074))) with (53 - d) in Hm by lia.
    rewrite E0 in Hq |- *.
    replace (- (d - 54)) with ((53 - d) + 1) in Hq by lia.
    rewrite Z.pow_add_r in Hq by lia.
    assert (Hqz : Zpos pq = Zpos mz * 2 ^ 1) by (rewrite Hq, Hm; ring).
    assert (Dz : Zpos (digits2_pos mz) = 53).
    { rewrite (digits2_mul_pow2 mz pa (53 - d));
        [unfold d; lia | lia | exact Hm]. }
    assert (Dq : Zpos (digits2_pos pq) = 54).
    { rewrite (digits2_mul_pow2 pq mz 1); [lia | lia | exact Hqz]. }
    rewrite (binary_round_aux_exact _ pq mz 1 (d - 54) Hqz) by lia.
    rewrite Ez, binary_round_aux_fits by lia.
    replace (d - 54 + 1) with (d - 53) by lia. reflexivity.
Qed.

(** A non-zero int divided by 1 or -1 is the conversion of the signed
    int, with the same overflow. *)
Lemma int_truediv_unit_conversion (a b : Z) :
  b = 1 \/ b = -1 -> a <> 0 -> int_truediv a b = float_of_int (a * b).
Proof.
  intros Hb Na. unfold int_truediv, float_of_int.
  destruct (Z.eqb_spec b 0) as [? | _]; [lia |].
  destruct (Z.eqb_spec a 0) as [? | _]; [contradiction |].
  replace (Z.to_pos (Z.abs b)) with 1%positive
    by (destruct Hb; subst; reflexivity).
  rewrite SFdiv_by_one, binary_normalize_signed by nia.
  replace (a * b <? 0) with (xorb (a <? 0) (b <? 0)).
  2:{ destruct Hb; subst b;
      destruct (Z.ltb_spec a 0), (Z.ltb_spec (a * 1) 0);
      try destruct (Z.ltb_spec (a * -1) 0); simpl; try reflexivity; try lia. }
  replace (Z.to_pos (Z.abs (a * b))) with (Z.to_pos (Z.abs a));
    [reflexivity |].
  f_equal. destruct Hb; subst b; lia.
Qed.

Lemma abduct_one_Int (y : Z) :
  abduct (Int 1) (Int y) = (f <- float_of_int y ;; Ok (Float f)).
Proof.
  rewrite abduct_Int_Int. change (2 * 1 - 1) with 1.
  replace (1 + y - 1) with y by lia.
  destruct (Z.eq_dec y 0) as [-> | Ny]; [reflexivity |].
  rewrite int_truediv_unit_conversion by (auto; lia).
  now rewrite Z.mul_1_r.
Qed.

Lemma abduct_zero_Int (y : Z) :
  y <> 1 ->
  abduct (Int 0) (Int y) = (f <- float_of_int (1 - y) ;; Ok (Float f)).
Proof.
  intros Ny. rewrite abduct_Int_Int. change (2 * 0 - 1) with (-1).
  rewrite int_truediv_unit_conversion by (auto; lia).
  now replace ((0 + y - 1) * -1) with (1 - y) by lia.
Qed.

(** An int of at most 53 binary digits converts without rounding. *)
Lemma binary_round_small (s : bool) (pa : positive) :
  Zpos (digits2_pos pa) <= 53 ->
  exists mz,
    Zpos mz = Zpos pa * 2 ^ (53 - Zpos (digits2_pos pa)) /\
    binary_round prec emax s pa 0 =
    S754_finite s mz (Zpos (digits2_pos pa) - 53) /\
    Prim2SF (SF2Prim (S754_finite s mz (Zpos (digits2_pos pa) - 53))) =
    S754_finite s mz (Zpos (digits2_pos pa) - 53).
Proof.
  intros Hd. unfold binary_round. rewrite fexp_eq.
  set (d := Zpos (digits2_pos pa)) in *.
  assert (Hd1 : 1 <= d) by (unfold d; lia).
  replace (d + 0 - 53) with (d - 53) by lia.
  destruct (shl_align_spec pa 0 (Z.max (d - 53) (-1074))) as [Hm Hs].
  destruct (shl_align pa 0 (Z.max (d - 53) (-1074))) as [mz ez].
  cbn [fst snd] in Hm, Hs.
  replace (Z.max 0 (0 - Z.max (d - 53) (-1074))) with (53 - d) in Hm by lia.
  assert (Ez : ez = d - 53) by lia.
  assert (Dz : Zpos (digits2_pos mz) = 53).
  { rewrite (digits2_mul_pow2 mz pa (53 - d));
      [unfold d; lia | lia | exact Hm]. }
  exists mz. split; [exact Hm |].
  rewrite Ez, binary_round_aux_fits by lia.
  destruct (Z.leb_spec (d - 53) 971) as [_ | ?]; [| lia].
  split; [reflexivity |]. apply valid_of_canonical; lia.
Qed.

(** [float(z) == z] for an int of magnitude below [2^53]. *)
Lemma float_of_int_exact (z : Z) :
  Z.abs z < 2 ^ 53 ->
  exists f, float_of_int z = Ok f /\ float_eq_int f z = true.
Proof.
  intros Hz. destruct (Z.eq_dec z 0) as [-> | Nz].
  { exists zero. split; reflexivity. }
  unfold float_of_int. rewrite binary_normalize_signed by assumption.
  set (pa := Z.to_pos (Z.abs z)).
  assert (Hpa : Zpos pa = Z.abs z) by (unfold pa; rewrite Z2Pos.id; lia).
  assert (Hd : Zpos (digits2_pos pa) <= 53).
  { rewrite digits2_log2, Hpa.
    assert (Z.log2 (Z.abs z) < 53) by (apply Z.log2_lt_pow2; lia). lia. }
  destruct (binary_round_small (z <? 0) pa Hd) as (mz & Hm & R & V).
  rewrite R. eexists. split; [reflexivity |].
  unfold float_eq_int. rewrite V.
  set (d := Zpos (digits2_pos pa)) in *.
  destruct (Z.leb_spec 0 (d - 53)) as [H0 | H0]; apply Z.eqb_eq.
  - replace (d - 53) with 0 by lia. replace (53 - d) with 0 in Hm by lia.
    change (2 ^ 0) with 1 in *. rewrite Z.mul_1_r, Hm, Z.mul_1_r, Hpa.
    destruct (Z.ltb_spec z 0); simpl; lia.
  - replace (- (d - 53)) with (53 - d) by lia. rewrite Hm, Hpa.
    destruct (Z.ltb_spec z 0); simpl.
    + replace (Z.abs z) with (- z) by lia. ring.
    + replace (Z.abs z) with z by lia. ring.
Qed.

Lemma div_eucl_exact (a b : Z) :
  0 < b -> Z.div_eucl (a * b) b = (a, 0).
Proof.
  intros Hb.
  pose proof (Z.div_eucl_eq (a * b) b ltac:(lia)) as H.
  pose proof (Z.mod_pos_bound (a * b) b Hb) as B.
  unfold Z.modulo in B. destruct (Z.div_eucl (a * b) b) as [q r].
  assert (q = a) by nia. subst q. f_equal. lia.
Qed.

(** Dividing a finite float by [1.0] or [-1.0] is exact. *)
Lemma SFdiv_finite_unit (s sb : bool) (m : positive) (e : Z) :
  SpecFloat.bounded prec emax m e = true ->
  SFdiv prec emax (S754_finite s m e)
    (S754_finite sb 4503599627370496 (-52)) =
  S754_finite (xorb s sb) m e.
Proof.
  intros B. destruct (bounded_canonical m e B) as [C E].
  unfold SFdiv, SFdiv_core_binary. cbn [Zdigits2].
  change (Zpos (digits2_pos 4503599627370496)) with 53.
  rewrite fexp_eq.
  set (d := Zpos (digits2_pos m)) in *.
  assert (Hd1 : 1 <= d) by (unfold d; lia).
  replace (d + e - (53 + -52) - 53) with (d + e - 54) by lia.
  replace (Z.min (Z.max (d + e - 54) (-1074)) (e - -52))
    with (Z.max (d + e - 54) (-1074)) by lia.
  set (e' := Z.max (d + e - 54) (-1074)).
  assert (He' : e' <= e) by (unfold e'; lia).
  destruct (e - -52 - e') as [| ps | ps] eqn:Es; try lia.
  rewrite Z.shiftl_mul_pow2 by lia. rewrite <- Es.
  replace (e - -52 - e') with ((e - e') + 52) by lia.
  rewrite Z.pow_add_r by lia. rewrite Z.mul_assoc.
  change (2 ^ 52) with 4503599627370496.
  rewrite (div_eucl_exact (Zpos m * 2 ^ (e - e')) 4503599627370496) by lia.
  change (new_location 4503599627370496 0) with loc_Exact.
  assert (Pq : 0 < Zpos m * 2 ^ (e - e'))
    by (apply Z.mul_pos_pos; [lia | apply Z.pow_pos_nonneg; lia]).
  destruct (Zpos m * 2 ^ (e - e')) as [| q | q] eqn:Hq; try lia.
  destruct (e - e') as [| p | p] eqn:Ep; try lia.
  - change (2 ^ 0) with 1 in Hq. rewrite Z.mul_1_r in Hq.
    injection Hq as <-. replace e' with e by lia.
    rewrite binary_round_aux_fits by (fold d; lia).
    destruct (Z.leb_spec e 971); [reflexivity | lia].
  - symmetry in Hq.
    assert (Dq : Zpos (digits2_pos q) = d + Zpos p)
      by (apply digits2_mul_pow2; [lia | exact Hq]).
    rewrite (binary_round_aux_exact _ q m p e' Hq) by lia.
    replace (e' + Zpos p) with e by lia.
    destruct (Z.leb_spec e 971); [reflexivity | lia].
Qed.

Lemma div_one (x : float) : (x / 1)%float = x.
Proof.
  apply Prim2SF_inj. rewrite div_spec.
  change (Prim2SF 1) with (S754_finite false 4503599627370496 (-52)).
  pose proof (Prim2SF_valid x) as V.
  destruct (Prim2SF x) as [s | s | | s m e].
  - destruct s; reflexivity.
  - destruct s; reflexivity.
  - reflexivity.
  - unfold SF64div. rewrite SFdiv_finite_unit by exact V.
    now rewrite xorb_false_r.
Qed.

Lemma div_minus_one (x : float) : (x / (-1))%float = (- x)%float.
Proof.
  apply Prim2SF_inj. rewrite div_spec, opp_spec.
  change (Prim2SF (-1)) with (S754_finite true 4503599627370496 (-52)).
  pose proof (Prim2SF_valid x) as V.
  destruct (Prim2SF x) as [s | s | | s m e].
  - destruct s; reflexivity.
  - destruct s; reflexivity.
  - reflexivity.
  - unfold SF64div. rewrite SFdiv_finite_unit by exact V.
    cbn [SFopp]. now rewrite xorb_true_r.
Qed.

(** X5: on int operands [abduct(1, y)] is [float(y)] and [abduct(0, y)]
    is [float(1 - y)]: the division by [1] or [-1] adds no rounding to the
    conversion and raises [OverflowError] exactly when the conversion
    does. The one difference is the sign of zero: [abduct(0, 1)] is
    [-0.0]. *)
Theorem abduct_int_conversion (y : Z) :
  abduct (Int 1) (Int y) = (f <- float_of_int y ;; Ok (Float f)) /\
  (y <> 1 ->
   abduct (Int 0) (Int y) = (f <- float_of_int (1 - y) ;; Ok (Float f))) /\
  abduct (Int 0) (Int 1) = Ok (Float neg_zero).
Proof.
  split; [apply abduct_one_Int |].
  split; [apply abduct_zero_Int | reflexivity].
Qed.

Lemma abduct_int_conversion_witness :
  abduct (Int 0) (Int 5) = Ok (Float (-4)).
Proof.
  rewrite (proj1 (proj2 (abduct_int_conversion 5))) by discriminate.
  reflexivity.
Defined.

(** X6: for an int outcome of magnitude below [2^53 - 1] abduction under a
    binary int treatment is exact: [abduct(1, y) == y] and
    [abduct(0, y) == 1 - y]. Beyond that range it is not: at
    [y = 2^53 + 1] the value returned is not [== y]. *)
Theorem abduct_exact_on_small_ints :
  (forall y : Z,
      Z.abs y < 2 ^ 53 - 1 ->
      (exists f, abduct (Int 1) (Int y) = Ok (Float f) /\
                 eq (Float f) (Int y) = true) /\
      (exists f, abduct (Int 0) (Int y) = Ok (Float f) /\
                 eq (Float f) (Int (1 - y)) = true)) /\
  (exists f, abduct (Int 1) (Int (2 ^ 53 + 1)) = Ok (Float f) /\
             eq (Float f) (Int (2 ^ 53 + 1)) = false).
Proof.
  split.
  - intros y Hy. assert (P : 2 ^ 53 = 9007199254740992) by reflexivity.
    split.
    + destruct (float_of_int_exact y) as (f & E & Q); [lia |].
      exists f. split; [| exact Q]. now rewrite abduct_one_Int, E.
    + destruct (Z.eq_dec y 1) as [-> | Ny].
      * exists neg_zero. split; reflexivity.
      * destruct (float_of_int_exact (1 - y)) as (f & E & Q); [lia |].
        exists f. split; [| exact Q]. now rewrite abduct_zero_Int, E.
  - eexists. split; [vm_compute; reflexivity | vm_compute; reflexivity].
Qed.

Lemma abduct_exact_on_small_ints_witness :
  (exists f, abduct (Int 1) (Int 12345) = Ok (Float f) /\
             eq (Float f) (Int 12345) = true) /\
  (exists f, abduct (Int 0) (Int 12345) = Ok (Float f) /\
             eq (Float f) (Int (1 - 12345)) = true).
Proof.
  apply (proj1 abduct_exact_on_small_ints 12345). reflexivity.
Defined.

(** X7: for a float outcome [y] and the treatment 1 or 0 (int or float)
    the division rounds nothing: [abduct(1, y)] is [(1 + y) - 1] and
    [abduct(0, y)] is [-((0 + y) - 1)] in binary64, infinities and NaN
    included and with no exception. The only rounding is that of the
    numerator. *)
Theorem abduct_binary_float (y : float) :
  abduct (Int 1) (Float y) = Ok (Float (1 + y - 1)) /\
  abduct (Float 1) (Float y) = Ok (Float (1 + y - 1)) /\
  abduct (Int 0) (Float y) = Ok (Float (- (0 + y - 1))) /\
  abduct (Float 0) (Float y) = Ok (Float (- (0 + y - 1))).
Proof.
  repeat split.
  - rewrite abduct_Int_Float. change (float_of_int 1) with (Ok 1%float).
    change (float_of_int (2 * 1 - 1)) with (Ok 1%float). cbn [bind].
    change (1 =? 0)%float with false. cbv iota. now rewrite div_one.
  - rewrite abduct_Float_Float. change (2 * 1 - 1)%float with 1%float.
    change (1 =? 0)%float with false. cbv iota. now rewrite div_one.
  - rewrite abduct_Int_Float. change (float_of_int 0) with (Ok 0%float).
    change (float_of_int (2 * 0 - 1)) with (Ok (-1)%float). cbn [bind].
    change (-1 =? 0)%float with false. cbv iota. now rewrite div_minus_one.
  - rewrite abduct_Float_Float. change (2 * 0 - 1)%float with (-1)%float.
    change (-1 =? 0)%float with false. cbv iota. now rewrite div_minus_one.
Qed.

End Conversion.

(** ** The conditional probability of the binary scenario *)

Module AssociationFacts.
Import Py Binary64 PyFacts Numpy Random Association.
Local Open Scope Z_scope.

Lemma mask_same_length {A : Type} (xs : list A) (bs : list bool) :
  length xs = length bs ->
  mask xs bs =
  Selected (map fst (filter (fun p : A * bool => snd p) (combine xs bs))).
Proof. intros H. unfold mask. now rewrite H, Nat.eqb_refl. Qed.

Lemma mask_other_length {A : Type} (xs : list A) (bs : list bool) :
  length xs <> length bs -> bs <> [] -> mask xs bs = IndexError.
Proof.
  intros H Hb. unfold mask.
  destruct (Nat.eqb_spec (length xs) (length bs)); [contradiction |].
  destruct bs; [contradiction | reflexivity].
Qed.

(** An empty boolean array selects nothing, whatever it indexes. *)
Lemma mask_empty {A : Type} (xs : list A) : mask xs [] = Selected [].
Proof. unfold mask. destruct xs; reflexivity. Qed.

(** The elements selected by [b]: as many as [b] has [True], and among
    them as many [True] as there are positions where both arrays are
    [True]. *)
Lemma selected_counts (a b : list bool) :
  length a = length b ->
  let s := map fst (filter (fun p : bool * bool => snd p) (combine a b)) in
  shape0 s = sum b /\
  sum s = sum (map (fun p => fst p && snd p) (combine a b)) /\
  0 <= sum s <= shape0 s /\ shape0 s <= Z.of_nat (length b).
Proof.
  revert b. induction a as [| x a IH]; intros [| y b] H; try discriminate.
  - cbn. lia.
  - injection H as H. specialize (IH b H). cbn zeta in IH |- *.
    destruct IH as (I1 & I2 & I3 & I4).
    unfold shape0 in *. cbn [combine filter snd].
    destruct x, y; cbn [map fst snd andb length sum fold_right] in *;
      fold (sum b) in *;
      repeat match goal with
             | |- context [fold_right ?f 0 ?l] =>
                 change (fold_right f 0 l) with (sum l)
             end;
      lia.
Qed.

(** A finite float divided by itself is [1.0]. *)
Lemma SFdiv_self (s : bool) (m : positive) (e : Z) :
  SFdiv prec emax (S754_finite s m e) (S754_finite s m e) =
  S754_finite false 4503599627370496 (-52).
Proof.
  unfold SFdiv, SFdiv_core_binary. cbn [Zdigits2].
  replace (Zpos (digits2_pos m) + e - (Zpos (digits2_pos m) + e)) with 0
    by lia.
  replace (e - e) with 0 by lia.
  change (Z.min (fexp prec emax 0) 0) with (-53).
  change (0 - -53) with 53. cbv iota.
  rewrite Z.shiftl_mul_pow2 by lia.
  assert (D : Z.div_eucl (Zpos m * 2 ^ 53) (Zpos m) = (2 ^ 53, 0)).
  { pose proof (Z.div_eucl_eq (Zpos m * 2 ^ 53) (Zpos m) ltac:(lia)) as H.
    pose proof (Z.mod_pos_bound (Zpos m * 2 ^ 53) (Zpos m) ltac:(lia)) as B.
    unfold Z.modulo in B.
    destruct (Z.div_eucl (Zpos m * 2 ^ 53) (Zpos m)) as [q r].
    assert (q = 2 ^ 53) by nia. subst q. f_equal. lia. }
  rewrite D.
  assert (L : new_location (Zpos m) 0 = loc_Exact).
  { unfold new_location, new_location_even, new_location_odd.
    destruct (Z.even (Zpos m)); reflexivity. }
  rewrite L. destruct s; vm_compute; reflexivity.
Qed.

(** A positive int below [2^1023] converts to a positive finite float. *)
Lemma to_float64_positive (n : Z) :
  0 < n < 2 ^ 1023 ->
  exists m e, Prim2SF (to_float64 n) = S754_finite false m e.
Proof.
  intros Hn. unfold to_float64.
  destruct (binary_normalize_spec n) as (m & e & C & B & R); [lia |].
  rewrite R.
  assert (L : Z.log2 (Z.abs n) < 1023) by (apply Z.log2_lt_pow2; lia).
  destruct (Z.leb_spec e 971) as [E | E]; [| lia].
  destruct (Z.ltb_spec n 0) as [? | _]; [lia |].
  exists m, e. apply valid_of_canonical; assumption.
Qed.

Lemma true_divide_self (n : Z) :
  0 < n < 2 ^ 1023 -> true_divide n n = 1%float.
Proof.
  intros Hn. destruct (to_float64_positive n Hn) as (m & e & P).
  unfold true_divide. apply Prim2SF_inj.
  rewrite div_spec, P. unfold SF64div. rewrite SFdiv_self. reflexivity.
Qed.

Lemma true_divide_zero (n : Z) :
  0 < n < 2 ^ 1023 -> true_divide 0 n = 0%float.
Proof.
  intros Hn. destruct (to_float64_positive n Hn) as (m & e & P).
  unfold true_divide. apply Prim2SF_inj.
  rewrite div_spec, P. reflexivity.
Qed.

Lemma proba_given_same_length (a b : list bool) :
  length a = length b ->
  proba_given a b =
  Selected (true_divide
              (sum (map (fun p => fst p && snd p) (combine a b))) (sum b)).
Proof.
  intros H. unfold proba_given. rewrite (mask_same_length a b H).
  destruct (selected_counts a b H) as (H1 & H2 & _). cbn zeta in H1, H2.
  now rewrite H1, H2.
Qed.

(** All selected elements are [True], or none is. *)
Lemma sum_all (a b : list bool) :
  length a = length b ->
  Forall (fun p => snd p = true -> fst p = true) (combine a b) ->
  sum (map (fun p => fst p && snd p) (combine a b)) = sum b.
Proof.
  revert b. induction a as [| x a IH]; intros [| y b] H F; try discriminate.
  - reflexivity.
  - injection H as H. cbn [combine] in F.
    inversion F as [| p l Hp F']; subst.
    cbn [combine map fst snd sum fold_right] in *.
    change (fold_right
              (fun (x0 : bool) (n : Z) => (if x0 then 1 else 0) + n) 0)
      with sum.
    rewrite (IH b H F'). destruct y; [rewrite Hp by reflexivity |];
      destruct x; reflexivity.
Qed.

Lemma sum_none (a b : list bool) :
  length a = length b ->
  Forall (fun p => snd p = true -> fst p = false) (combine a b) ->
  sum (map (fun p => fst p && snd p) (combine a b)) = 0.
Proof.
  revert b. induction a as [| x a IH]; intros [| y b] H F; try discriminate.
  - reflexivity.
  - injection H as H. cbn [combine] in F.
    inversion F as [| p l Hp F']; subst.
    cbn [combine map fst snd sum fold_right] in *.
    change (fold_right
              (fun (x0 : bool) (n : Z) => (if x0 then 1 else 0) + n) 0)
      with sum.
    rewrite (IH b H F'). destruct y; [rewrite Hp by reflexivity |];
      destruct x; reflexivity.
Qed.

(** X8: for two boolean arrays of one length, [a[b].sum() / a[b].shape[0]]
    is the float64 quotient [k / n] of two counts: [n] the number of [True]
    in [b] and [k] the number of positions where both are [True], with
    [0 <= k <= n <= len(b)]. When the lengths differ and [b] is not empty
    the indexing raises [IndexError]; an empty [b] selects nothing from
    any [a], and the result is [0 / 0], a NaN. *)
Theorem proba_given_counts (a b : list bool) :
  (length a = length b ->
   let k := sum (map (fun p => fst p && snd p) (combine a b)) in
   let n := sum b in
   proba_given a b = Selected (true_divide k n) /\
   0 <= k <= n /\ n <= Z.of_nat (length b)) /\
  (length a <> length b -> b <> [] -> proba_given a b = IndexError) /\
  (b = [] -> proba_given a b = Selected nan).
Proof.
  split; [| split].
  - intros H k n. split; [now apply proba_given_same_length |].
    destruct (selected_counts a b H) as (H1 & H2 & H3 & H4).
    cbn zeta in H1, H2, H3, H4. unfold k, n. lia.
  - intros H Hb. unfold proba_given. now rewrite mask_other_length.
  - intros ->. unfold proba_given. rewrite mask_empty. reflexivity.
Qed.

Lemma proba_given_counts_witness :
  proba_given [true; false; true; true] [true; true; false; true] =
  Selected (true_divide 2 3) /\
  proba_given [true; false] [true] = IndexError /\
  proba_given [true; false] [] = Selected nan.
Proof.
  split; [| split].
  - apply (proj1 (proba_given_counts [true; false; true; true]
                    [true; true; false; true])). reflexivity.
  - apply (proj1 (proj2 (proba_given_counts [true; false] [true])));
      discriminate.
  - apply (proj2 (proj2 (proba_given_counts [true; false] []))). reflexivity.
Defined.

(** X9: for two boolean arrays of one length (below [2^63]): when [b] has
    no [True] the quotient is [0 / 0], a NaN, and nothing is raised; when
    [b] has a [True] and [a] is [True] wherever [b] is, the result is
    exactly [1.0]; when [a] is [False] wherever [b] is [True], it is
    exactly [0.0]. *)
Theorem proba_given_extremes (a b : list bool) :
  length a = length b ->
  Z.of_nat (length b) < 2 ^ 63 ->
  (sum b = 0 -> proba_given a b = Selected nan) /\
  (0 < sum b ->
   Forall (fun p => snd p = true -> fst p = true) (combine a b) ->
   proba_given a b = Selected 1%float) /\
  (0 < sum b ->
   Forall (fun p => snd p = true -> fst p = false) (combine a b) ->
   proba_given a b = Selected 0%float).
Proof.
  intros H L. rewrite (proba_given_same_length a b H).
  destruct (selected_counts a b H) as (H1 & H2 & H3 & H4).
  cbn zeta in H1, H2, H3, H4.
  assert (P : 2 ^ 63 < 2 ^ 1023) by reflexivity.
  split; [| split].
  - intros Z0. replace (sum (map _ _)) with 0 by lia. rewrite Z0. reflexivity.
  - intros Pos F. rewrite (sum_all a b H F).
    f_equal. apply true_divide_self. lia.
  - intros Pos F. rewrite (sum_none a b H F).
    f_equal. apply true_divide_zero. lia.
Qed.

Lemma proba_given_extremes_witness :
  proba_given [true; false; true] [false; false; false] = Selected nan /\
  proba_given [true; false; true] [true; false; true] = Selected 1%float /\
  proba_given [false; true; false] [true; false; true] = Selected 0%float.
Proof.
  split; [| split].
  - apply (proba_given_extremes [true; false; true] [false; false; false]);
      reflexivity.
  - apply (proba_given_extremes [true; false; true] [true; false; true]);
      try reflexivity.
    repeat constructor; cbn; congruence.
  - apply (proba_given_extremes [false; true; false] [true; false; true]);
      try reflexivity.
    repeat constructor; cbn; congruence.
Defined.

End AssociationFacts.

(** ** More on the sampler of the binary scenario *)

Module Sampling.
Import Numpy Random Sampler Association AssociationFacts.
Local Open Scope float_scope.

Lemma zip_app {A B : Type} (xs xs' : list A) (ys ys' : list B) :
  length xs = length ys ->
  combine (xs ++ xs') (ys ++ ys') = combine xs ys ++ combine xs' ys'.
Proof.
  revert ys. induction xs as [| x xs IH]; intros [| y ys] H; try discriminate.
  - reflexivity.
  - injection H as H. cbn. now rewrite IH.
Qed.

Lemma equations_same_length (u0 u1 : list float) :
  length u0 = length u1 ->
  BookSCM.equations u0 u1 =
  Ok (greater u0 0.61,
      greater (map (fun p => of_bool (fst p) + snd p)
                 (combine (greater u0 0.61) (scale 0.5 u1))) 0.2).
Proof.
  intros H. unfold BookSCM.equations, add_bool.
  rewrite broadcast2_same by (unfold greater, scale; now rewrite !length_map).
  reflexivity.
Qed.

(** X10: [sample] with a sample size of zero returns two empty arrays and
    with a negative one raises [ValueError]; in both cases the generator is
    left in the state it was in. *)
Theorem sample_nonpositive (G : generator) (random_seed : option Z) (N : Z)
        (g : rng G) :
  (N <= 0)%Z ->
  BookSCM.sample G (BookSCM.init random_seed) N g =
  (if (N <? 0)%Z then Raise ValueError else Ok ([], []), g).
Proof.
  intros HN. unfold BookSCM.sample, BookSCM.init, BookSCM.rvs.
  cbn [BookSCM.u_0 BookSCM.u_1].
  destruct (Z.ltb_spec N 0) as [Hneg | Hz].
  - now rewrite sized_negative.
  - assert (N = 0%Z) by lia. subst N. reflexivity.
Qed.

Lemma sample_nonpositive_witness :
  BookSCM.sample Lcg.G (BookSCM.init (Some 42%Z)) (-3) 2024%Z =
  (Raise ValueError, 2024%Z).
Proof.
  apply (sample_nonpositive Lcg.G (Some 42%Z) (-3) 2024%Z). lia.
Defined.

(** X11: the structural equations treat every sample on its own: on
    noise vectors that are concatenations, the two arrays they give are the
    concatenations of the arrays given by the parts. *)
Theorem equations_app (u0 u1 v0 v1 : list float) :
  length u0 = length u1 -> length v0 = length v1 ->
  exists A B A' B',
    BookSCM.equations u0 u1 = Ok (A, B) /\
    BookSCM.equations v0 v1 = Ok (A', B') /\
    BookSCM.equations (u0 ++ v0) (u1 ++ v1) = Ok (A ++ A', B ++ B').
Proof.
  intros Hu Hv.
  rewrite (equations_same_length u0 u1 Hu), (equations_same_length v0 v1 Hv).
  rewrite equations_same_length by (rewrite !length_app; congruence).
  eexists. eexists. eexists. eexists.
  split; [reflexivity |]. split; [reflexivity |].
  unfold greater, scale. rewrite !map_app.
  rewrite zip_app by (rewrite !length_map; exact Hu).
  now rewrite !map_app.
Qed.

Lemma equations_app_witness :
  BookSCM.equations ([0.7; 0.5] ++ [0.62]) ([0.1; -2] ++ [3]) =
  Ok ([true; false] ++ [true], [true; false] ++ [true]).
Proof.
  destruct (equations_app [0.7; 0.5] [0.1; -2] [0.62] [3] eq_refl eq_refl)
    as (A & B & A' & B' & E & E' & R).
  rewrite R. vm_compute in E, E'. congruence.
Defined.

(** X12: the two arrays [sample] returns for a sample size [N >= 0] have
    [N] elements each, so either can index the other: the conditional
    probability of the next cell never raises [IndexError], in either
    direction, and is the quotient of the two counts. *)
Theorem sample_then_proba (G : generator) (random_seed : option Z) (N : Z)
        (g : rng G) :
  (0 <= N)%Z ->
  exists A B g',
    BookSCM.sample G (BookSCM.init random_seed) N g = (Ok (A, B), g') /\
    length A = Z.to_nat N /\ length B = Z.to_nat N /\
    proba_given A B =
    Selected (true_divide (sum (map (fun p => fst p && snd p) (combine A B)))
                (sum B)) /\
    proba_given B A =
    Selected (true_divide (sum (map (fun p => fst p && snd p) (combine B A)))
                (sum A)).
Proof.
  intros HN.
  destruct (sample_draws G random_seed N g HN)
    as (u0 & u1 & g1 & g2 & _ & _ & L0 & L1 & S).
  destruct (equations_elementwise u0 u1) as (A & B & E & LA & LB & _);
    [congruence |].
  exists A, B, g2. rewrite S, E.
  split; [reflexivity |]. split; [congruence |]. split; [congruence |].
  split; apply proba_given_same_length; congruence.
Qed.

Lemma sample_then_proba_witness :
  exists A B g',
    BookSCM.sample Lcg.G (BookSCM.init (Some 42%Z)) 5 2024%Z =
    (Ok (A, B), g') /\
    proba_given A B =
    Selected (true_divide (sum (map (fun p => fst p && snd p) (combine A B)))
                (sum B)).
Proof.
  destruct (sample_then_proba Lcg.G (Some 42%Z) 5 2024%Z ltac:(lia))
    as (A & B & g' & E & _ & _ & P & _).
  exists A, B, g'. split; [exact E | exact P].
Defined.

End Sampling.

(** ** Runs of the cells of the continuous scenario *)

Module SessionFacts.
Import Numpy Random Continuous Session Sampler.
Local Open Scope float_scope.

Lemma draws_app {S : Type} (next : S -> float * S) (n m : nat) (g : S) :
  draws next (n + m) g =
  (fst (draws next n g) ++ fst (draws next m (snd (draws next n g))),
   snd (draws next m (snd (draws next n g)))).
Proof.
  revert g. induction n as [| n IH]; intros g.
  - cbn. now destruct (draws next m g).
  - cbn [Nat.add draws]. destruct (next g) as [x g1]. rewrite IH.
    destruct (draws next n g1) as [xs g2]. reflexivity.
Qed.

Section Invariant.
Variable G : generator.

Lemma noise_length :
  length (noise_0 G) = 100%nat /\ length (noise_1 G) = 100%nat.
Proof. split; apply draws_length. Qed.

Lemma build_built (nb0 : notebook G) :
  exists nb,
    cell_build G nb0 = Ok nb /\ built G nb /\ a nb = Some (noise_0 G) /\
    gen nb = snd (draws (standard_normal G) 200 (seed G 42)) /\
    exists B, b nb = Some B /\
      forall i, (i < 100)%nat ->
        nth i B 0 = 5 * nth i (noise_0 G) 0 + nth i (noise_1 G) 0.
Proof.
  destruct (cell_build_spec G nb0)
    as (nb & B & E & HS & HU0 & HU1 & HA & HB & HG & L0 & L1 & LB & Hnth).
  exists nb. split; [exact E |]. split; [| split; [exact HA | split]].
  - unfold built. repeat split; try assumption.
    + exists (noise_0 G). split; assumption.
    + exists B. split; assumption.
  - rewrite HG. change 200%nat with (100 + 100)%nat. now rewrite draws_app.
  - exists B. split; assumption.
Qed.

Lemma intervene_A_built (c : float) (nb : notebook G) :
  built G nb ->
  exists nb',
    intervene_on_A G c nb = Ok nb' /\ built G nb' /\ gen nb' = gen nb /\
    a nb' = Some (repeat c 100) /\
    b nb' = Some (map (fun x => 5 * c + x) (noise_1 G)).
Proof.
  intros (HS & HU0 & HU1 & _ & _).
  destruct noise_length as [L0 L1].
  rewrite (intervene_on_A_run G c nb 100 (noise_1 G) HS HU1 L1).
  eexists. split; [reflexivity |]. cbn [gen a b].
  split; [| auto].
  unfold built. cbn [SAMPLE_SIZE u_0 u_1 a b].
  repeat split; try assumption.
  - eexists. split; [reflexivity |]. apply repeat_length.
  - eexists. split; [reflexivity |]. now rewrite length_map.
Qed.

Lemma intervene_B_built (nb : notebook G) :
  built G nb ->
  exists nb',
    cell_intervene_B G nb = Ok nb' /\ built G nb' /\
    gen nb' = snd (draws (standard_normal G) 100 (gen nb)) /\
    a nb' = Some (noise_0 G) /\
    b nb' = Some (fst (draws (standard_normal G) 100 (gen nb))).
Proof.
  intros (HS & HU0 & HU1 & _ & _).
  destruct noise_length as [L0 L1].
  rewrite (cell_intervene_B_run G nb 100 (noise_0 G) HS ltac:(lia) HU0 L0).
  change (Z.to_nat 100) with 100%nat.
  eexists. split; [reflexivity |]. cbn [gen a b].
  split; [| auto].
  unfold built. cbn [SAMPLE_SIZE u_0 u_1 a b].
  repeat split; try assumption.
  - eexists. split; [reflexivity | assumption].
  - eexists. split; [reflexivity |]. apply draws_length.
Qed.

Lemma run_cell_built (k : cell) (nb : notebook G) :
  built G nb -> exists nb', run_cell G k nb = Ok nb' /\ built G nb'.
Proof.
  intros H. destruct k as [| c |]; cbn [run_cell].
  - destruct (build_built nb) as (nb' & E & B & _). eauto.
  - destruct (intervene_A_built c nb H) as (nb' & E & B & _). eauto.
  - destruct (intervene_B_built nb H) as (nb' & E & B & _). eauto.
Qed.

Lemma run_built (ks : list cell) (nb : notebook G) :
  built G nb -> exists nb', run G ks nb = Ok nb' /\ built G nb'.
Proof.
  revert nb. induction ks as [| k ks IH]; intros nb H; cbn [run].
  - eauto.
  - destruct (run_cell_built k nb H) as (nb1 & E & H1). rewrite E.
    cbn [bind]. now apply IH.
Qed.

Lemma run_app (ks ks' : list cell) (nb : notebook G) :
  run G (ks ++ ks') nb = (nb' <- run G ks nb ;; run G ks' nb').
Proof.
  revert nb. induction ks as [| k ks IH]; intros nb; cbn [app run bind].
  - reflexivity.
  - destruct (run_cell G k nb); cbn [bind]; [apply IH | reflexivity].
Qed.

Lemma run_from_build (ks : list cell) (nb0 : notebook G) :
  exists nb, run G (Build :: ks) nb0 = Ok nb /\ built G nb.
Proof.
  cbn [run run_cell].
  destruct (build_built nb0) as (nb1 & E & B & _). rewrite E. cbn [bind].
  now apply run_built.
Qed.

Lemma interventions_advance (ks : list cell) (nb : notebook G) (p : nat) :
  built G nb ->
  gen nb = snd (draws (standard_normal G) p (seed G 42)) ->
  forallb is_intervention ks = true ->
  exists nb',
    run G ks nb = Ok nb' /\ built G nb' /\
    gen nb' =
    snd (draws (standard_normal G)
           (p + 100 * length (filter is_InterveneB ks)) (seed G 42)).
Proof.
  revert nb p. induction ks as [| k ks IH]; intros nb p H Hg Hk.
  - exists nb. cbn [run filter length].
    rewrite Nat.mul_0_r, Nat.add_0_r. auto.
  - cbn [forallb] in Hk. apply andb_prop in Hk. destruct Hk as [Hk Hks].
    cbn [run]. destruct k as [| c |]; [discriminate | |]; cbn [run_cell].
    + destruct (intervene_A_built c nb H) as (nb1 & E & H1 & G1 & _).
      rewrite E. cbn [bind].
      destruct (IH nb1 p H1 ltac:(congruence) Hks) as (nb' & E' & H' & G').
      exists nb'. cbn [filter is_InterveneB]. auto.
    + destruct (intervene_B_built nb H) as (nb1 & E & H1 & G1 & _).
      rewrite E. cbn [bind].
      assert (Hg1 : gen nb1 =
                    snd (draws (standard_normal G) (p + 100) (seed G 42)))
        by (rewrite G1, Hg, draws_app; reflexivity).
      destruct (IH nb1 (p + 100)%nat H1 Hg1 Hks) as (nb' & E' & H' & G').
      exists nb'. cbn [filter is_InterveneB length].
      rewrite G'. split; [assumption |]. split; [assumption |].
      f_equal. f_equal. lia.
Qed.

(** X13: an intervention cell run before the first cell raises
    [NameError]: the intervention on [A] when [SAMPLE_SIZE] or [u_1] is not
    bound, the intervention on [B] when [u_0] or [SAMPLE_SIZE] is not; so
    does every run of cells that starts with an intervention in a notebook
    where nothing has run. *)
Theorem interventions_need_build :
  (forall (nb : notebook G) (c : float),
      SAMPLE_SIZE nb = None \/ u_1 nb = None ->
      intervene_on_A G c nb = Raise NameError) /\
  (forall nb : notebook G,
      u_0 nb = None \/ SAMPLE_SIZE nb = None ->
      cell_intervene_B G nb = Raise NameError) /\
  (forall (g : rng G) (k : cell) (ks : list cell),
      is_intervention k = true ->
      run G (k :: ks) (fresh G g) = Raise NameError).
Proof.
  split; [| split].
  - intros nb c [H | H]; unfold intervene_on_A; rewrite H; cbn [lookup bind];
      [reflexivity |].
    destruct (SAMPLE_SIZE nb); reflexivity.
  - intros nb [H | H]; unfold cell_intervene_B; rewrite H; cbn [lookup bind];
      [reflexivity |].
    destruct (u_0 nb); reflexivity.
  - intros g [| c |] ks H; [discriminate | reflexivity | reflexivity].
Qed.

(** X14: once the first cell has run, every sequence of cells, in any
    order and of any length, runs without an exception, and after it
    [SAMPLE_SIZE] is 100, [u_0] and [u_1] are the two blocks of 100 draws
    that follow the seeding with 42, and [a] and [b] hold 100 values
    each. *)
Theorem run_after_build (ks : list cell) (nb0 : notebook G) :
  exists nb,
    run G (Build :: ks) nb0 = Ok nb /\
    SAMPLE_SIZE nb = Some 100%Z /\
    u_0 nb = Some (noise_0 G) /\ u_1 nb = Some (noise_1 G) /\
    length (noise_0 G) = 100%nat /\ length (noise_1 G) = 100%nat /\
    (exists A, a nb = Some A /\ length A = 100%nat) /\
    (exists B, b nb = Some B /\ length B = 100%nat).
Proof.
  destruct (run_from_build ks nb0) as (nb & E & HS & H0 & H1 & HA & HB).
  destruct noise_length as [L0 L1].
  exists nb. auto 10.
Qed.

(** X15: the last intervention decides, whatever cells ran between the
    first cell and it: after an intervention on [A] with the constant [c],
    [a] is [c] repeated and [b] is [5*c + u_1] on the noise of the first
    cell, also when an intervention on [B] came before; after an
    intervention on [B], [a] is [u_0] again, also when an intervention on
    [A] came before. *)
Theorem last_intervention_decides (ks : list cell) (nb0 : notebook G) :
  (forall c : float,
      exists nb,
        run G (Build :: ks ++ [InterveneA c]) nb0 = Ok nb /\
        a nb = Some (repeat c 100) /\
        b nb = Some (map (fun x => 5 * c + x) (noise_1 G))) /\
  (exists nb B,
      run G (Build :: ks ++ [InterveneB]) nb0 = Ok nb /\
      a nb = Some (noise_0 G) /\ b nb = Some B /\ length B = 100%nat).
Proof.
  destruct (run_from_build ks nb0) as (nb1 & E & H).
  split.
  - intros c.
    destruct (intervene_A_built c nb1 H) as (nb & E' & _ & _ & HA & HB).
    exists nb. rewrite app_comm_cons, run_app, E. cbn [bind run run_cell].
    rewrite E'. auto.
  - destruct (intervene_B_built nb1 H) as (nb & E' & _ & _ & HA & HB).
    exists nb. eexists. rewrite app_comm_cons, run_app, E.
    cbn [bind run run_cell]. rewrite E'. cbn [bind].
    split; [reflexivity |].
    split; [exact HA |]. split; [exact HB |]. apply draws_length.
Qed.

(** X16: the generator is never reseeded by an intervention: after the
    first cell and any sequence of interventions, it stands at
    [200 + 100 * j] normal draws from the seeding with 42, [j] being the
    number of interventions on [B] in the sequence; the next intervention
    on [B] binds [b] to the 100 draws that follow. *)
Theorem generator_position (ks : list cell) (nb0 : notebook G) :
  forallb is_intervention ks = true ->
  (exists nb,
      run G (Build :: ks) nb0 = Ok nb /\
      gen nb =
      snd (draws (standard_normal G)
             (200 + 100 * length (filter is_InterveneB ks)) (seed G 42))) /\
  (exists nb,
      run G (Build :: ks ++ [InterveneB]) nb0 = Ok nb /\
      b nb =
      Some (fst (draws (standard_normal G) 100
                   (snd (draws (standard_normal G)
                           (200 + 100 * length (filter is_InterveneB ks))
                           (seed G 42)))))).
Proof.
  intros Hk.
  destruct (build_built nb0) as (nb1 & E1 & H1 & _ & G1 & _).
  destruct (interventions_advance ks nb1 200 H1 G1 Hk) as (nb & E & H & HG).
  assert (R : run G (Build :: ks) nb0 = Ok nb)
    by (cbn [run run_cell]; rewrite E1; exact E).
  split.
  - exists nb. split; [exact R | exact HG].
  - destruct (intervene_B_built nb H) as (nb' & E' & _ & _ & _ & HB).
    exists nb'. rewrite app_comm_cons, run_app, R. cbn [bind run run_cell].
    rewrite E'. cbn [bind]. split; [reflexivity |]. now rewrite HB, HG.
Qed.

(** X17: the first cell, from any notebook state, returns without an
    exception; [u_0] followed by [u_1] is the first 200 normal draws after
    the seeding with 42 and the generator is left after them; [a] is [u_0]
    and [b[i] = 5 * u_0[i] + u_1[i]] for each of the 100 indices. *)
Theorem build_observational (nb0 : notebook G) :
  exists nb B,
    cell_build G nb0 = Ok nb /\
    noise_0 G ++ noise_1 G =
    fst (draws (standard_normal G) 200 (seed G 42)) /\
    gen nb = snd (draws (standard_normal G) 200 (seed G 42)) /\
    u_0 nb = Some (noise_0 G) /\ u_1 nb = Some (noise_1 G) /\
    a nb = Some (noise_0 G) /\ b nb = Some B /\ length B = 100%nat /\
    forall i, (i < 100)%nat ->
      nth i B 0 = 5 * nth i (noise_0 G) 0 + nth i (noise_1 G) 0.
Proof.
  destruct (build_built nb0)
    as (nb & E & (_ & H0 & H1 & _ & (B' & HB' & LB)) & HA & HG & B & HB & Hnth).
  exists nb, B. split; [exact E |].
  split; [change 200%nat with (100 + 100)%nat; now rewrite draws_app |].
  assert (B' = B) by congruence. subst B'. auto 10.
Qed.

End Invariant.

Lemma interventions_need_build_witness :
  intervene_on_A Lcg.G 1.5 (fresh Lcg.G 2024%Z) = Raise NameError /\
  cell_intervene_B Lcg.G (fresh Lcg.G 2024%Z) = Raise NameError /\
  run Lcg.G [InterveneB; Build] (fresh Lcg.G 2024%Z) = Raise NameError.
Proof.
  destruct (interventions_need_build Lcg.G) as (HA & HB & HR).
  split; [apply HA; left; reflexivity |].
  split; [apply HB; left; reflexivity | apply HR; reflexivity].
Defined.

Lemma generator_position_witness :
  exists nb,
    run Lcg.G [Build; InterveneA 1.5; InterveneB] Lcg.small_notebook = Ok nb /\
    gen nb = snd (draws Lcg.normal_draw 300 42%Z).
Proof.
  destruct (generator_position Lcg.G [InterveneA 1.5; InterveneB]
              Lcg.small_notebook eq_refl) as [(nb & E & HG) _].
  exists nb. split; [exact E | exact HG].
Defined.

Lemma build_observational_witness :
  exists nb B,
    cell_build Lcg.G Lcg.small_notebook = Ok nb /\ b nb = Some B /\
    nth 7 B 0 = 5 * nth 7 (noise_0 Lcg.G) 0 + nth 7 (noise_1 Lcg.G) 0.
Proof.
  destruct (build_observational Lcg.G Lcg.small_notebook)
    as (nb & B & E & _ & _ & _ & _ & _ & HB & _ & Hnth).
  exists nb, B. split; [exact E |]. split; [exact HB |]. apply Hnth. lia.
Defined.

End SessionFacts.
